(** * Public-holidays app: the data-access layer

    A shallow embedding of the typed, validating HTTP client
    (services/holidaysApi.ts), of the Zod schemas and error classes
    (types/api.ts), of the constants (constants/api.ts), of the two query
    hooks (hooks/useCountries.ts, hooks/useHolidays.ts) and of the
    holiday list component (components/HolidayList.tsx), together with a
    model of the query layer the hooks hand their options to, followed by
    the properties the specification states about them. *)

From Stdlib Require Import ZArith String Ascii List Bool Lia DecimalString.
From Stdlib Require Import DecimalPos DecimalZ.
From stdpp Require Import gmap strings list.
Import ListNotations.

Local Open Scope Z_scope.
Set Warnings "-register-all".

(** ** JavaScript primitives used by the sources *)

Module Js.

(** [String.prototype.toLowerCase] on the ASCII range: the language
    codes handled by the program are ASCII tags such as EN or de. *)
Definition lowerChar (c : ascii) : ascii :=
  let n := nat_of_ascii c in
  if (65 <=? n)%nat && (n <=? 90)%nat then ascii_of_nat (n + 32) else c.

Fixpoint toLowerCase (s : string) : string :=
  match s with
  | EmptyString => EmptyString
  | String c t => String (lowerChar c) (toLowerCase t)
  end.

(** [s.includes(needle)]: [needle] occurs in [s] as a contiguous run. *)
Fixpoint includes (needle s : string) : bool :=
  String.prefix needle s ||
  match s with
  | EmptyString => false
  | String _ t => includes needle t
  end.

(** Truthiness of a [string | undefined] value: [undefined] and the
    empty string are falsy. *)
Definition truthy (v : option string) : bool :=
  match v with
  | Some s => negb (String.eqb s "")
  | None => false
  end.

(** [a || b] where both sides are [string | undefined]. *)
Definition orUndef (a b : option string) : option string :=
  if truthy a then a else b.

(** [a || lit] where [lit] is a string literal: the result is a string. *)
Definition orStr (a : option string) (lit : string) : string :=
  match a with
  | Some s => if String.eqb s "" then lit else s
  | None => lit
  end.

(** [`${n}`] for an integral number. *)
Definition numberToString (n : Z) : string :=
  NilZero.string_of_int (Z.to_int n).

(** [year || dflt] where [year] is [number | undefined]: [undefined]
    and [0] are falsy. *)
Definition orNumber (year : option Z) (dflt : Z) : Z :=
  match year with
  | Some y => if y =? 0 then dflt else y
  | None => dflt
  end.

(** What a rejected promise or a [throw] carries when it is not one of
    the program's own classes: an [Error] with a name and a message,
    or some other value. *)
Inductive Thrown :=
| ThrownError (name message : string)
| ThrownOther.

End Js.


(** ** Zod: JSON values, declarative schemas and [schema.parse] *)

Module Zod.

(** The untyped value produced by [response.json()]. The schemas of the
    program never inspect a number, so its payload is kept integral. *)
Inductive json :=
| JNull
| JBool (b : bool)
| JNumber (n : Z)
| JString (s : string)
| JArray (items : list json)
| JObject (fields : list (string * json)).

(** [obj[key]]: [None] stands for [undefined]. *)
Fixpoint lookupField (key : string) (fields : list (string * json))
  : option json :=
  match fields with
  | [] => None
  | (k, v) :: rest =>
      if String.eqb k key then Some v else lookupField key rest
  end.

(** [value[key]] on an arbitrary JSON value: only objects have fields. *)
Definition getField (key : string) (v : json) : option json :=
  match v with
  | JObject fields => lookupField key fields
  | _ => None
  end.

(** The schema combinators the program uses: [z.string()],
    [z.boolean()], [z.array(s)], [z.object({...})], [s.optional()]. *)
Inductive schema :=
| ZString
| ZBoolean
| ZArray (element : schema)
| ZObject (shape : list (string * schema))
| ZOptional (inner : schema).

Inductive pathSegment :=
| PKey (k : string)
| PIndex (i : nat).

(** One entry of a [ZodError]: which type was expected, and where. *)
Record issue := mkIssue { expected : string; path : list pathSegment }.

(** A [ZodError] is its list of issues. *)
Definition ZodError := list issue.

Inductive result (A : Type) :=
| Ok (a : A)
| Err (e : ZodError).
Arguments Ok {A} a.
Arguments Err {A} e.

Definition under (seg : pathSegment) (e : ZodError) : ZodError :=
  map (fun i => mkIssue (expected i) (seg :: path i)) e.

(** Parse the elements of an array with [p], numbering them from [i];
    every failing element contributes its issues. *)
Fixpoint parseItems (p : json -> result json)
    (i : nat) (items : list json) : result (list json) :=
  match items with
  | [] => Ok []
  | x :: rest =>
      match p x, parseItems p (S i) rest with
      | Ok y, Ok ys => Ok (y :: ys)
      | Ok _, Err e => Err e
      | Err e, Ok _ => Err (under (PIndex i) e)
      | Err e, Err e' => Err (under (PIndex i) e ++ e')
      end
  end.

(** Assemble the output object from the per-key results of an object
    schema: a key whose result is [undefined] is left out, and every
    failing key contributes its issues. *)
Fixpoint collectFields (rs : list (string * result (option json)))
  : result (list (string * json)) :=
  match rs with
  | [] => Ok []
  | (k, r) :: rest =>
      match r, collectFields rest with
      | Ok (Some y), Ok ys => Ok ((k, y) :: ys)
      | Ok None, Ok ys => Ok ys
      | Ok _, Err e => Err e
      | Err e, Ok _ => Err (under (PKey k) e)
      | Err e, Err e' => Err (under (PKey k) e ++ e')
      end
  end.

Definition invalidType (what : string) : ZodError := [mkIssue what []].

Definition typeName (s : schema) : string :=
  match s with
  | ZString => "string"
  | ZBoolean => "boolean"
  | ZArray _ => "array"
  | ZObject _ => "object"
  | ZOptional _ => "optional"
  end.

(** The result of a schema on [undefined], the value of a key the input
    does not have: only an optional schema accepts it. *)
Definition missing (s : schema) : result (option json) :=
  match s with
  | ZOptional _ => Ok None
  | _ => Err (invalidType (typeName s))
  end.

Definition defined (r : result json) : result (option json) :=
  match r with
  | Ok y => Ok (Some y)
  | Err e => Err e
  end.

(** [schema.parse(value)]. An object schema reads exactly the keys of
    its shape and drops every other key of the input. *)
Fixpoint parse (s : schema) (v : json) : result json :=
  match s with
  | ZString =>
      match v with
      | JString x => Ok (JString x)
      | _ => Err (invalidType "string")
      end
  | ZBoolean =>
      match v with
      | JBool b => Ok (JBool b)
      | _ => Err (invalidType "boolean")
      end
  | ZArray element =>
      match v with
      | JArray items =>
          match parseItems (parse element) 0 items with
          | Ok ys => Ok (JArray ys)
          | Err e => Err e
          end
      | _ => Err (invalidType "array")
      end
  | ZObject shape =>
      match v with
      | JObject fields =>
          match collectFields
                  (map (fun ks =>
                          match ks with
                          | (k, sk) =>
                              (k, match lookupField k fields with
                                  | Some x => defined (parse sk x)
                                  | None => missing sk
                                  end)
                          end) shape) with
          | Ok ys => Ok (JObject ys)
          | Err e => Err e
          end
      | _ => Err (invalidType "object")
      end
  | ZOptional inner => parse inner v
  end.

End Zod.

(** ** constants/api.ts *)

Module Constants.

Definition API_BASE_URL : string := "https://openholidaysapi.org".

Module CACHE_TIMES.
Definition COUNTRIES : Z := 1000 * 60 * 30.
Definition HOLIDAYS : Z := 1000 * 60 * 15.
End CACHE_TIMES.

Module RETRY_CONFIG.
Definition MAX_RETRIES : nat := 3.
Definition DELAY_MULTIPLIER : Z := 1000.
Definition MAX_DELAY : Z := 30000.
End RETRY_CONFIG.

End Constants.

(** ** types/api.ts: schemas, inferred types and error classes *)

Module Types.
Import Zod.

Definition LocalizedTextSchema : schema :=
  ZObject [("language", ZString); ("text", ZString)]%string.

Definition CountrySchema : schema :=
  ZObject [("isoCode", ZString);
           ("name", ZArray LocalizedTextSchema);
           ("officialLanguages", ZArray ZString)]%string.

Definition HolidaySchema : schema :=
  ZObject [("id", ZString);
           ("startDate", ZString);
           ("endDate", ZString);
           ("type", ZString);
           ("nationwide", ZBoolean);
           ("name", ZArray LocalizedTextSchema);
           ("comment", ZOptional (ZArray LocalizedTextSchema))]%string.

(** The types inferred from the schemas. *)
Record LocalizedText := { language : string; text : string }.

Record Country := {
  isoCode : string;
  name : list LocalizedText;
  officialLanguages : list string
}.

Definition CountriesResponseSchema : schema := ZArray CountrySchema.
Definition HolidaysResponseSchema : schema := ZArray HolidaySchema.

(** The JSON value of a typed [LocalizedText] / [Country]: an object
    with exactly the fields of the type. *)
Definition localizedTextJson (t : LocalizedText) : json :=
  JObject [("language", JString (language t));
           ("text", JString (text t))]%string.

Definition countryJson (c : Country) : json :=
  JObject [("isoCode", JString (isoCode c));
           ("name", JArray (map localizedTextJson (name c)));
           ("officialLanguages", JArray (map JString (officialLanguages c)))]%string.

(** The two error classes a fetch can reject with: [ValidationError]
    (types/api.ts) and [HolidaysApiError] (services/holidaysApi.ts). *)
Inductive ApiFailure :=
| ValidationError (message : string) (cause : ZodError)
| HolidaysApiError (message : string) (status : option Z) (code : option string).

(** [error.name] and [error.message], the two properties the hooks
    read from a failure. *)
Record Error := { errorName : string; errorMessage : string }.

Definition toError (f : ApiFailure) : Error :=
  match f with
  | ValidationError m _ =>
      {| errorName := "ValidationError"; errorMessage := m |}
  | HolidaysApiError m _ _ =>
      {| errorName := "HolidaysApiError"; errorMessage := m |}
  end.

(** The specification's error taxonomy, read off the error classes:
    [ValidationError] is Validation; a [HolidaysApiError] that carries
    an HTTP status is NotFound for 404 and Transport otherwise; one
    without a status (a rejected [fetch], an unreadable body) is
    Unknown. *)
Inductive Kind := Validation | Transport | NotFound | Unknown.

Definition kindOf (f : ApiFailure) : Kind :=
  match f with
  | ValidationError _ _ => Validation
  | HolidaysApiError _ (Some st) _ => if st =? 404 then NotFound else Transport
  | HolidaysApiError _ None _ => Unknown
  end.

End Types.

(** ** services/holidaysApi.ts *)

Module HolidaysApi.
Import Zod Types Constants.

(** How a promise settles. *)
Inductive Settled (A : Type) :=
| Fulfilled (a : A)
| Rejected (t : Js.Thrown).
Arguments Fulfilled {A} a.
Arguments Rejected {A} t.

(** The part of a [Response] the client reads. [json] is what
    [response.json()] settles to: the parsed body, or the rejection
    raised for a body that is not JSON. *)
Record Response := {
  status : Z;
  statusText : string;
  json : Settled Zod.json
}.

(** [response.ok]: the status is in the range 200-299. *)
Definition ok (r : Response) : bool :=
  (200 <=? status r) && (status r <=? 299).

(** The transport: what [fetch(url)] settles to. *)
Definition Transport := string -> Settled Response.

(** What the [try] block of [fetchWithValidation] can raise. *)
Inductive Caught :=
| CaughtZodError (e : ZodError)
| CaughtHolidaysApiError (message : string) (status : option Z)
| CaughtOther (t : Js.Thrown).

Definition tryBlock (fetch : Transport) (url : string) (s : schema)
  : Caught + Zod.json :=
  match fetch url with
  | Rejected t => inl (CaughtOther t)
  | Fulfilled response =>
      if negb (ok response) then
        inl (CaughtHolidaysApiError
               ("API request failed: " ++ statusText response)%string
               (Some (status response)))
      else
        match json response with
        | Rejected t => inl (CaughtOther t)
        | Fulfilled data =>
            match parse s data with
            | Ok validatedData => inr validatedData
            | Err e => inl (CaughtZodError e)
            end
        end
  end.

Definition catchBlock (error : Caught) : ApiFailure :=
  match error with
  | CaughtZodError e => ValidationError "Invalid API response format" e
  | CaughtHolidaysApiError m st => HolidaysApiError m st None
  | CaughtOther t =>
      HolidaysApiError
        match t with
        | Js.ThrownError _ m => m
        | Js.ThrownOther => "Unknown error occurred"%string
        end None None
  end.

(** [fetchWithValidation(url, schema)]: the validated data, or the
    failure the promise rejects with. *)
Definition fetchWithValidation (fetch : Transport) (url : string)
    (s : schema) : ApiFailure + Zod.json :=
  match tryBlock fetch url s with
  | inl error => inl (catchBlock error)
  | inr validatedData => inr validatedData
  end.

Definition countriesUrl : string := (API_BASE_URL ++ "/Countries")%string.

Definition fetchCountries (fetch : Transport) : ApiFailure + Zod.json :=
  fetchWithValidation fetch countriesUrl CountriesResponseSchema.

(** The URL [fetchHolidays] requests; [thisYear] is
    [new Date().getFullYear()]. *)
Definition holidaysUrl (thisYear : Z) (countryIsoCode : string)
    (year : option Z) : string :=
  let currentYear := Js.orNumber year thisYear in
  (API_BASE_URL ++ "/PublicHolidays?countryIsoCode=" ++ countryIsoCode
     ++ "&languageIsoCode=EN&validFrom=" ++ Js.numberToString currentYear
     ++ "-01-01&validTo=" ++ Js.numberToString currentYear
     ++ "-12-31")%string.

Definition fetchHolidays (fetch : Transport) (thisYear : Z)
    (countryIsoCode : string) (year : option Z) : ApiFailure + Zod.json :=
  fetchWithValidation fetch (holidaysUrl thisYear countryIsoCode year)
    HolidaysResponseSchema.

(** The callback of [items.find] in [getLocalizedText]. *)
Definition matchesLanguage (preferredLanguage : string)
    (item : LocalizedText) : bool :=
  String.eqb (Js.toLowerCase (language item))
             (Js.toLowerCase preferredLanguage).

Definition getLocalizedText (items : list LocalizedText)
    (preferredLanguage : string) : string :=
  let preferred := List.find (matchesLanguage preferredLanguage) items in
  Js.orStr
    (Js.orUndef (option_map text preferred) (option_map text (head items)))
    "Unknown".

(** The default of the second parameter: [preferredLanguage = 'en']. *)
Definition getLocalizedTextDefault (items : list LocalizedText) : string :=
  getLocalizedText items "en".

End HolidaysApi.

(** ** hooks/useCountries.ts and hooks/useHolidays.ts *)

Module Hooks.
Import Zod Types Constants.

(** One part of a query key: a string, a number, or [undefined]. *)
Definition KeyPart : Type := option (string + Z).
Definition QueryKey : Type := list KeyPart.

Definition keyString (s : string) : KeyPart := Some (inl s).
Definition keyNumber (n : option Z) : KeyPart := option_map inr n.

(** What a query function asks the client for: both query functions
    are calls of [fetchWithValidation]. *)
Record Request := { url : string; responseSchema : schema }.

(** The options object handed to [useQuery]. [queryFn] takes the
    calendar year at the time it runs. *)
Record QueryOptions := {
  queryKey : QueryKey;
  queryFn : Z -> Request;
  enabled : bool;
  staleTime : Z;
  retry : nat -> Error -> bool;
  retryDelay : nat -> Z
}.

Definition useCountries : QueryOptions := {|
  queryKey := [keyString "countries"];
  queryFn := fun _ =>
    {| url := HolidaysApi.countriesUrl;
       responseSchema := CountriesResponseSchema |};
  enabled := true;
  staleTime := CACHE_TIMES.COUNTRIES;
  retry := fun failureCount error =>
    if String.eqb (errorName error) "ValidationError" then false
    else (failureCount <? RETRY_CONFIG.MAX_RETRIES)%nat;
  retryDelay := fun attemptIndex =>
    Z.min (RETRY_CONFIG.DELAY_MULTIPLIER * 2 ^ Z.of_nat attemptIndex)
          RETRY_CONFIG.MAX_DELAY
|}.

Definition useHolidays (countryIsoCode : string) (year : option Z)
  : QueryOptions := {|
  queryKey := [keyString "holidays"; keyString countryIsoCode; keyNumber year];
  queryFn := fun thisYear =>
    {| url := HolidaysApi.holidaysUrl thisYear countryIsoCode year;
       responseSchema := HolidaysResponseSchema |};
  enabled := negb (String.eqb countryIsoCode "");
  staleTime := CACHE_TIMES.HOLIDAYS;
  retry := fun failureCount error =>
    if String.eqb (errorName error) "ValidationError" then false
    else if Js.includes "404" (errorMessage error) then false
    else (failureCount <? 2)%nat;
  retryDelay := fun attemptIndex =>
    Z.min (RETRY_CONFIG.DELAY_MULTIPLIER * 2 ^ Z.of_nat attemptIndex) 10000
|}.

(** Running a query function against a transport. *)
Definition runQueryFn (fetch : HolidaysApi.Transport) (thisYear : Z)
    (o : QueryOptions) : ApiFailure + Zod.json :=
  HolidaysApi.fetchWithValidation fetch
    (url (queryFn o thisYear)) (responseSchema (queryFn o thisYear)).

End Hooks.

(** ** The resource cache / query layer *)

Module QueryLayer.
Import Zod Types Hooks.

(** Modelled from the spec: the state of a key's cache entry. The
    query layer itself is the query library the hooks hand their
    options to; it is not among the sources, so the cache, its state
    machine and its retry loop follow sections 4.3 and 5 of the
    specification. A key without an entry is in the state the
    specification calls Idle. *)
Inductive EntryState := Fetching | Fresh | Stale | Errored.

(** Modelled from the spec: a cache entry (the key is the key of the
    map that holds it). [latest] is the sequence number of the newest
    attempt started for the key, [ttl] the stale time it was started
    with, and [servedFrom] the URL whose response produced [value]. *)
Record CacheEntry := {
  value : option json;
  failure : option ApiFailure;
  fetchedAt : Z;
  state : EntryState;
  latest : nat;
  ttl : Z;
  servedFrom : option string
}.

(** Modelled from the spec: an in-flight attempt, tagged with the key
    it was started for and its sequence number. *)
Record Attempt := { forKey : QueryKey; request : Request; seq : nat }.

(** Modelled from the spec: the cache map, the attempts in flight, the
    network calls issued so far (newest first), the next sequence
    number, and the clock (calendar year, milliseconds). *)
Record Cache := {
  entries : gmap QueryKey CacheEntry;
  inflight : list Attempt;
  calls : list (QueryKey * string);
  nextSeq : nat;
  thisYear : Z;
  nowMs : Z
}.

Definition emptyCache : Cache := {|
  entries := ∅; inflight := []; calls := []; nextSeq := 0%nat;
  thisYear := 1970; nowMs := 0
|}.

(** Modelled from the spec: starting an attempt for the key of [o]
    issues one network call and moves the entry to Fetching, keeping
    the last known value (stale-while-revalidate). *)
Definition start (o : QueryOptions) (c : Cache) : Cache :=
  let k := queryKey o in
  let r := queryFn o (thisYear c) in
  let old := entries c !! k in
  let e := {|
    value := old ≫= value;
    failure := None;
    fetchedAt := from_option fetchedAt 0 old;
    state := Fetching;
    latest := nextSeq c;
    ttl := staleTime o;
    servedFrom := old ≫= servedFrom
  |} in
  {| entries := <[k := e]> (entries c);
     inflight := inflight c ++ [{| forKey := k; request := r; seq := nextSeq c |}];
     calls := (k, url r) :: calls c;
     nextSeq := S (nextSeq c);
     thisYear := thisYear c;
     nowMs := nowMs c |}.

(** Modelled from the spec: a consumer reads the key of [o]. A disabled
    key does nothing; an Idle or Stale key starts an attempt; a
    Fetching key shares the attempt in flight; a Fresh key is served
    from the cache; an Errored key waits for [refetch]. *)
Definition access (o : QueryOptions) (c : Cache) : Cache :=
  if negb (enabled o) then c
  else
    match entries c !! queryKey o with
    | None => start o c
    | Some e =>
        match state e with
        | Stale => start o c
        | Fetching | Fresh | Errored => c
        end
    end.

(** Modelled from the spec: [refetch] starts an attempt at once,
    bypassing the freshness check; an attempt already in flight for the
    key is superseded. *)
Definition refetch (o : QueryOptions) (c : Cache) : Cache := start o c.

(** Modelled from the spec: the [i]-th attempt in flight settles. Its
    outcome is what the API client makes of the transport's answer; it
    is written into the entry of the attempt's own key, and only when
    the attempt is still the newest one for that key. *)
Definition settle (i : nat) (answer : HolidaysApi.Settled HolidaysApi.Response)
    (c : Cache) : Cache :=
  match inflight c !! i with
  | None => c
  | Some a =>
      let rest := delete i (inflight c) in
      let written :=
        match entries c !! forKey a with
        | None => entries c
        | Some e =>
            if negb (latest e =? seq a)%nat then entries c
            else
              match HolidaysApi.fetchWithValidation (fun _ => answer)
                      (url (request a)) (responseSchema (request a)) with
              | inr v =>
                  <[forKey a := {|
                      value := Some v; failure := None;
                      fetchedAt := nowMs c; state := Fresh;
                      latest := latest e; ttl := ttl e;
                      servedFrom := Some (url (request a)) |}]> (entries c)
              | inl f =>
                  <[forKey a := {|
                      value := value e; failure := Some f;
                      fetchedAt := fetchedAt e; state := Errored;
                      latest := latest e; ttl := ttl e;
                      servedFrom := servedFrom e |}]> (entries c)
              end
        end in
      {| entries := written; inflight := rest; calls := calls c;
         nextSeq := nextSeq c; thisYear := thisYear c; nowMs := nowMs c |}
  end.

(** Modelled from the spec: Fresh becomes Stale once the TTL has
    elapsed. *)
Definition expireEntry (now : Z) (e : CacheEntry) : CacheEntry :=
  match state e with
  | Fresh =>
      if fetchedAt e + ttl e <=? now then
        {| value := value e; failure := failure e; fetchedAt := fetchedAt e;
           state := Stale; latest := latest e; ttl := ttl e;
           servedFrom := servedFrom e |}
      else e
  | _ => e
  end.

(** Modelled from the spec: the clock moves to the given year and time. *)
Definition advance (year now : Z) (c : Cache) : Cache :=
  {| entries := expireEntry now <$> entries c;
     inflight := inflight c; calls := calls c; nextSeq := nextSeq c;
     thisYear := year; nowMs := now |}.

(** Modelled from the spec: what the query layer exposes per key. *)
Record QueryResult := {
  data : option json;
  isLoading : bool;
  error : option ApiFailure
}.

Definition read (o : QueryOptions) (c : Cache) : QueryResult :=
  match entries c !! queryKey o with
  | None => {| data := None; isLoading := false; error := None |}
  | Some e =>
      {| data := value e;
         isLoading :=
           match state e, value e with
           | Fetching, None => true
           | _, _ => false
           end;
         error := failure e |}
  end.

(** Modelled from the spec: the retry loop around one logical fetch.
    [attempt n] is the outcome of the attempt made after [n] failures;
    a failure is retried when the [retry] predicate of the options
    says so, after the delay [retryDelay] gives. The result is the
    delays waited and the final outcome; [None] when [fuel] runs out. *)
Fixpoint retryLoop (o : QueryOptions) (attempt : nat -> ApiFailure + json)
    (failureCount : nat) (fuel : nat)
  : option (list Z * (ApiFailure + json)) :=
  match fuel with
  | O => None
  | S fuel' =>
      match attempt failureCount with
      | inr v => Some ([], inr v)
      | inl f =>
          if retry o failureCount (toError f) then
            match retryLoop o attempt (S failureCount) fuel' with
            | Some (ds, r) => Some (retryDelay o failureCount :: ds, r)
            | None => None
            end
          else Some ([], inl f)
      end
  end.

End QueryLayer.

(** ** components/HolidayList.tsx and the events of the application *)

Module Components.
Import Zod Types Hooks QueryLayer.

(** Reading validated data back at its inferred type. *)
Definition asString (v : option json) : string :=
  match v with
  | Some (JString s) => s
  | _ => ""%string
  end.

Definition asItems (v : option json) : list json :=
  match v with
  | Some (JArray items) => items
  | _ => []
  end.

Definition asLocalizedText (v : json) : LocalizedText :=
  {| language := asString (getField "language" v);
     text := asString (getField "text" v) |}.

Definition asCountry (v : json) : Country :=
  {| isoCode := asString (getField "isoCode" v);
     name := map asLocalizedText (asItems (getField "name" v));
     officialLanguages :=
       map (fun x => asString (Some x))
           (asItems (getField "officialLanguages" v)) |}.

(** What a component renders. *)
Inductive Body :=
| HolidayListSkeleton
| HolidayCards (holidays : list json)
| NoHolidaysFound (message : string).

Inductive View :=
| Null
| ErrorDisplay (title message : string)
| Card (heading : string) (body : Body).

(** [HolidayList({ countryIsoCode })], given what the two hooks return
    and [new Date().getFullYear()]. The error view is the one that
    carries the Try Again button, wired to [refetch]. *)
Definition HolidayList (countries holidays : QueryResult)
    (countryIsoCode : string) (currentYear : Z) : View :=
  let selectedCountry :=
    List.find
      (fun c => String.eqb (asString (getField "isoCode" c)) countryIsoCode)
      (asItems (data countries)) in
  let countryName :=
    match selectedCountry with
    | Some c =>
        HolidaysApi.getLocalizedTextDefault
          (map asLocalizedText (asItems (getField "name" c)))
    | None => countryIsoCode
    end in
  if String.eqb countryIsoCode "" then Null
  else
    match error holidays with
    | Some err =>
        ErrorDisplay
          ("Failed to load holidays for " ++ countryName)%string
          (Js.orStr (Some (errorMessage (toError err)))
             "An unexpected error occurred. Please try again.")
    | None =>
        Card
          ("Public Holidays in " ++ countryName ++ " ("
             ++ Js.numberToString currentYear ++ ")")%string
          (if isLoading holidays then HolidayListSkeleton
           else
             match data holidays with
             | Some (JArray (h :: hs)) => HolidayCards (h :: hs)
             | _ =>
                 NoHolidaysFound
                   ("No public holidays found for " ++ countryName ++ " in "
                      ++ Js.numberToString currentYear ++ ".")%string
             end)
    end.

(** The view of [HolidayList] over a cache. *)
Definition viewOf (c : Cache) (countryIsoCode : string) : View :=
  HolidayList (read useCountries c) (read (useHolidays countryIsoCode None) c)
    countryIsoCode (thisYear c).

(** What can happen to the cache while the application runs. *)
Inductive Event :=
| Render (countryIsoCode : string)
| UseHolidays (countryIsoCode : string) (year : option Z)
| TryAgain (countryIsoCode : string)
| Settle (i : nat) (answer : HolidaysApi.Settled HolidaysApi.Response)
| Advance (year now : Z).

(** [Render]: [HolidayList] renders for the selected country and calls
    both hooks. [UseHolidays]: any consumer calls the hook. [TryAgain]:
    a click on the button of the error view, when that view is shown.
    [Settle] and [Advance] are the network's and the clock's moves. *)
Definition step (c : Cache) (ev : Event) : Cache :=
  match ev with
  | Render countryIsoCode =>
      access (useHolidays countryIsoCode None) (access useCountries c)
  | UseHolidays countryIsoCode year =>
      access (useHolidays countryIsoCode year) c
  | TryAgain countryIsoCode =>
      match viewOf c countryIsoCode with
      | ErrorDisplay _ _ => refetch (useHolidays countryIsoCode None) c
      | _ => c
      end
  | Settle i answer => settle i answer c
  | Advance year now => advance year now c
  end.

Definition run (events : list Event) : Cache :=
  fold_left step events emptyCache.

End Components.

(** ** The functions as the specification words them *)

Module Spec.
Import Types.

(** Section 6 of the specification: the entry matching the preferred
    language case-insensitively, else the first entry, else the literal
    Unknown. *)
Definition pickLocalizedText (items : list LocalizedText)
    (preferredLanguage : string) : string :=
  match List.find
          (fun item =>
             String.eqb (Js.toLowerCase preferredLanguage)
                        (Js.toLowerCase (language item)))
          items with
  | Some entry => text entry
  | None =>
      match items with
      | first :: _ => text first
      | [] => "Unknown"%string
      end
  end.

(** The text of the first entry when there is one and its text is not
    empty, else the literal Unknown. *)
Definition fallbackText (items : list LocalizedText) : string :=
  match items with
  | first :: _ =>
      if String.eqb (text first) "" then "Unknown"%string else text first
  | [] => "Unknown"%string
  end.

(** Section 6 of the specification: the holidays request for a country
    and a year, the closed interval from January 1st to December 31st
    of that year, in English. *)
Definition holidaysRequest (iso : string) (y : Z) : string :=
  ("https://openholidaysapi.org/PublicHolidays?countryIsoCode=" ++ iso
     ++ "&languageIsoCode=EN&validFrom=" ++ Js.numberToString y
     ++ "-01-01&validTo=" ++ Js.numberToString y ++ "-12-31")%string.

(** Sections 4.2 and 8: the year the request is built for, defaulting
    to the current calendar year when the argument is omitted. *)
Definition requestedYear (thisYear : Z) (year : option Z) : Z :=
  match year with
  | Some y => y
  | None => thisYear
  end.

End Spec.

(** ** Invariants of the cache under the events of the application *)

Module Invariants.
Import Zod Types Hooks QueryLayer Components.

(** A key together with a URL requested for it: either the countries
    key with the countries URL, or the holidays key of a non-empty
    country code and a year with the URL [fetchHolidays] builds for
    that very code and year. *)
Definition wellKeyed (k : QueryKey) (u : string) : Prop :=
  (k = queryKey useCountries /\ u = HolidaysApi.countriesUrl) \/
  exists (thisYear : Z) (countryIsoCode : string) (year : option Z),
    countryIsoCode <> ""%string /\
    k = queryKey (useHolidays countryIsoCode year) /\
    u = HolidaysApi.holidaysUrl thisYear countryIsoCode year.

(** A key some enabled hook call can produce. *)
Definition knownKey (k : QueryKey) : Prop :=
  k = queryKey useCountries \/
  exists (countryIsoCode : string) (year : option Z),
    countryIsoCode <> ""%string /\
    k = queryKey (useHolidays countryIsoCode year).

Record Inv (c : Cache) : Prop := {
  inv_inflight :
    Forall (fun a => wellKeyed (forKey a) (url (request a))) (inflight c);
  inv_calls :
    Forall (fun ku => wellKeyed (fst ku) (snd ku)) (calls c);
  inv_entries :
    forall k e, entries c !! k = Some e ->
      knownKey k /\ forall u, servedFrom e = Some u -> wellKeyed k u
}.

(** Options whose query function requests what their key names. *)
Definition keyed (o : QueryOptions) : Prop :=
  forall thisYear : Z, wellKeyed (queryKey o) (url (queryFn o thisYear)).

End Invariants.

(** ** The Holiday type and the remaining components *)

Module HolidayData.
Import Zod Types Components.

(** The type inferred from [HolidaySchema]; [comment] is the optional
    key. *)
Record Holiday := {
  id : string;
  startDate : string;
  endDate : string;
  type : string;
  nationwide : bool;
  name : list LocalizedText;
  comment : option (list LocalizedText)
}.

(** The JSON value of a typed [Holiday]: an object with exactly the
    fields of the type, the [comment] key only when there is a comment. *)
Definition holidayJson (h : Holiday) : json :=
  JObject
    ([("id", JString (id h));
      ("startDate", JString (startDate h));
      ("endDate", JString (endDate h));
      ("type", JString (type h));
      ("nationwide", JBool (nationwide h));
      ("name", JArray (map localizedTextJson (name h)))]%string
     ++ match comment h with
        | Some c => [("comment", JArray (map localizedTextJson c))]%string
        | None => []
        end).

Definition asBool (v : option json) : bool :=
  match v with
  | Some (JBool b) => b
  | _ => false
  end.

(** Reading validated data back at the inferred type. *)
Definition asHoliday (v : json) : Holiday :=
  {| id := asString (getField "id" v);
     startDate := asString (getField "startDate" v);
     endDate := asString (getField "endDate" v);
     type := asString (getField "type" v);
     nationwide := asBool (getField "nationwide" v);
     name := map asLocalizedText (asItems (getField "name" v));
     comment :=
       match getField "comment" v with
       | Some c => Some (map asLocalizedText (asItems (Some c)))
       | None => None
       end |}.

End HolidayData.

(** ** components/ErrorDisplay.tsx, CountrySelector.tsx, HolidayCard.tsx,
       ErrorBoundary.tsx and App.tsx *)

Module Views.
Import Zod Types.

(** What [ErrorDisplay] renders: the title, the text, and whether the
    Try Again button is there. *)
Record ErrorCard := {
  cardTitle : string;
  cardText : string;
  tryAgain : bool
}.

(** [ErrorDisplay({ error, onRetry, title = 'Something went wrong' })];
    [onRetry] says whether the handler was passed. *)
Definition ErrorDisplay (error : Error) (onRetry : bool)
    (title : option string) : ErrorCard :=
  {| cardTitle :=
       match title with
       | Some t => t
       | None => "Something went wrong"%string
       end;
     cardText :=
       Js.orStr (Some (errorMessage error))
         "An unexpected error occurred. Please try again.";
     tryAgain := onRetry |}.

(** What [CountrySelector] renders: the error card, or the card with
    either the skeleton or the select element, given by its value and its
    options (value and label). *)
Inductive SelectBody :=
| LoadingSkeleton
| Select (value : string) (options : list (string * string)).

Inductive SelectorView :=
| SelectorError (card : ErrorCard)
| SelectorCard (body : SelectBody).

Definition getCountryName (country : Country) : string :=
  HolidaysApi.getLocalizedTextDefault (name country).

(** [CountrySelector({ selectedCountry, onCountryChange })], given what
    [useCountries()] returns. *)
Definition CountrySelector (countries : QueryLayer.QueryResult)
    (selectedCountry : string) : SelectorView :=
  match QueryLayer.error countries with
  | Some err =>
      SelectorError
        (ErrorDisplay (toError err) true (Some "Failed to load countries"%string))
  | None =>
      SelectorCard
        (if QueryLayer.isLoading countries then LoadingSkeleton
         else
           Select selectedCountry
             ((""%string, "-- Select a Country --"%string)
                :: map (fun country =>
                          (isoCode country,
                           (getCountryName country ++ " (" ++ isoCode country
                              ++ ")")%string))
                     (map Components.asCountry
                        (Components.asItems (QueryLayer.data countries)))))
  end.

(** What [HolidayCard] renders. *)
Record CardView := {
  cardHeading : string;
  startText : string;
  endText : option string;
  commentText : option string;
  scopeBadge : string;
  scopeClass : string;
  scopeLabel : string;
  typeBadge : string;
  typeLabel : string
}.

(** [HolidayCard({ holiday })]. [formatHolidayDate] renders a date with
    the locale of the browser and is taken as a parameter. *)
Definition HolidayCard (formatHolidayDate : string -> string)
    (holiday : HolidayData.Holiday) : CardView :=
  let holidayName :=
    HolidaysApi.getLocalizedTextDefault (HolidayData.name holiday) in
  let comment :=
    match HolidayData.comment holiday with
    | Some c => Some (HolidaysApi.getLocalizedTextDefault c)
    | None => None
    end in
  {| cardHeading := holidayName;
     startText := formatHolidayDate (HolidayData.startDate holiday);
     endText :=
       if String.eqb (HolidayData.startDate holiday) (HolidayData.endDate holiday)
       then None
       else Some (formatHolidayDate (HolidayData.endDate holiday));
     commentText := if Js.truthy comment then comment else None;
     scopeBadge :=
       if HolidayData.nationwide holiday then "Nationwide"%string
       else "Regional"%string;
     scopeClass :=
       ("badge " ++ if HolidayData.nationwide holiday then "badge-success"
                    else "badge-warning")%string;
     scopeLabel :=
       if HolidayData.nationwide holiday then "Nationwide holiday"%string
       else "Regional holiday"%string;
     typeBadge := HolidayData.type holiday;
     typeLabel := ("Holiday type: " ++ HolidayData.type holiday)%string |}.

(** The state of [ErrorBoundary]. *)
Record BoundaryState := {
  hasError : bool;
  caught : option Error
}.

Definition initialState : BoundaryState :=
  {| hasError := false; caught := None |}.

Definition getDerivedStateFromError (error : Error) : BoundaryState :=
  {| hasError := true; caught := Some error |}.

(** What [ErrorBoundary.render] returns: the children, the fallback
    prop, or its own card with the details of the error. *)
Inductive BoundaryView (A : Type) :=
| Children (children : A)
| Fallback (fallback : A)
| RefreshCard (details : option string).
Arguments Children {A} children.
Arguments Fallback {A} fallback.
Arguments RefreshCard {A} details.

Definition render {A : Type} (state : BoundaryState) (fallback : option A)
    (children : A) : BoundaryView A :=
  if hasError state then
    match fallback with
    | Some f => Fallback f
    | None => RefreshCard (option_map errorMessage (caught state))
    end
  else Children children.

(** The boundary after the errors thrown below it, oldest first. *)
Definition afterErrors (errors : list Error) : BoundaryState :=
  fold_left (fun _ error => getDerivedStateFromError error) errors initialState.

(** [App]: the selected country after the changes the selector reported,
    oldest first; the state starts empty and [handleCountryChange] stores
    the code it is given. *)
Definition handleCountryChange (countryCode : string) (_ : string) : string :=
  countryCode.

Definition selectedCountry (changes : list string) : string :=
  fold_left (fun selected countryCode => handleCountryChange countryCode selected)
    changes ""%string.

End Views.

(** * Properties *)

Import Zod Types Constants HolidaysApi Hooks QueryLayer Components Invariants.

(** ** Retry policy of the two hooks *)

(** C2: an error named ValidationError is never retried, whatever the
    failure count, by the countries hook and by the holidays hook. *)
Theorem validation_error_never_retried :
  forall (failureCount : nat) (error : Error)
         (countryIsoCode : string) (year : option Z),
    errorName error = "ValidationError"%string ->
    retry useCountries failureCount error = false /\
    retry (useHolidays countryIsoCode year) failureCount error = false.
Proof.
  intros failureCount error countryIsoCode year Hname.
  cbn [retry useCountries useHolidays].
  rewrite Hname. split; reflexivity.
Qed.

Lemma validation_error_never_retried_witness :
  retry useCountries 0
    (toError (ValidationError "Invalid API response format" [])) = false /\
  retry (useHolidays "US" None) 0
    (toError (ValidationError "Invalid API response format" [])) = false.
Proof.
  apply (validation_error_never_retried 0
           (toError (ValidationError "Invalid API response format" []))
           "US"%string None).
  reflexivity.
Defined.

(** A retry predicate with a ceiling on the failure count makes the
    retry loop return, after at most that many delays, whatever the
    attempts do. *)
Lemma retryLoop_total (o : QueryOptions) (ceiling : nat)
    (attempt : nat -> ApiFailure + Zod.json) :
  (forall (failureCount : nat) (e : Error),
      retry o failureCount e = true -> (failureCount < ceiling)%nat) ->
  forall (fuel failureCount : nat),
    (ceiling - failureCount < fuel)%nat ->
    exists (ds : list Z) (r : ApiFailure + Zod.json),
      retryLoop o attempt failureCount fuel = Some (ds, r) /\
      (length ds <= ceiling - failureCount)%nat.
Proof.
  intros Hceiling fuel.
  induction fuel as [|fuel IH]; intros failureCount Hfuel; [lia|].
  cbn [retryLoop].
  destruct (attempt failureCount) as [f|v].
  - destruct (retry o failureCount (toError f)) eqn:Hretry.
    + apply Hceiling in Hretry.
      destruct (IH (S failureCount)) as (ds & r & Hrun & Hlen); [lia|].
      rewrite Hrun. exists (retryDelay o failureCount :: ds), r.
      split; [reflexivity|]. cbn [length]. lia.
    + exists [], (inl f). split; [reflexivity|]. cbn [length]. lia.
  - exists [], (inr v). split; [reflexivity|]. cbn [length]. lia.
Qed.

Lemma useCountries_retry_ceiling (failureCount : nat) (e : Error) :
  retry useCountries failureCount e = true -> (failureCount < 3)%nat.
Proof.
  cbn [retry useCountries].
  destruct (String.eqb (errorName e) "ValidationError"); [discriminate|].
  intros H. apply Nat.ltb_lt in H. exact H.
Qed.

Lemma useHolidays_retry_ceiling (countryIsoCode : string) (year : option Z)
    (failureCount : nat) (e : Error) :
  retry (useHolidays countryIsoCode year) failureCount e = true ->
  (failureCount < 2)%nat.
Proof.
  cbn [retry useHolidays].
  destruct (String.eqb (errorName e) "ValidationError"); [discriminate|].
  destruct (Js.includes "404" (errorMessage e)); [discriminate|].
  intros H. apply Nat.ltb_lt in H. exact H.
Qed.

(** C3: the delay before retry [n] is [min (1000 * 2^n) max_delay], with
    [max_delay] 30000 for countries and 10000 for holidays; a failed
    countries fetch is retried while fewer than 3 failures have occurred,
    a failed holidays fetch while fewer than 2 have (and its message does
    not mention 404); so a countries fetch that keeps failing waits 1000,
    2000, 4000 ms and stops, a holidays fetch 1000, 2000 ms; whatever the
    attempts do, the loop returns after at most 3 delays for countries
    and at most 2 for holidays. *)
Theorem retry_backoff_policy :
  (forall n : nat,
      retryDelay useCountries n = Z.min (1000 * 2 ^ Z.of_nat n) 30000) /\
  (forall (countryIsoCode : string) (year : option Z) (n : nat),
      retryDelay (useHolidays countryIsoCode year) n
      = Z.min (1000 * 2 ^ Z.of_nat n) 10000) /\
  (forall (m : string) (st : option Z) (code : option string) (failureCount : nat),
      retry useCountries failureCount (toError (HolidaysApiError m st code))
      = (failureCount <? 3)%nat) /\
  (forall (countryIsoCode : string) (year : option Z)
          (m : string) (st : option Z) (code : option string) (failureCount : nat),
      retry (useHolidays countryIsoCode year) failureCount
        (toError (HolidaysApiError m st code))
      = negb (Js.includes "404" m) && (failureCount <? 2)%nat) /\
  (forall (m : string) (st : option Z) (code : option string) (extra : nat),
      retryLoop useCountries (fun _ => inl (HolidaysApiError m st code)) 0
        (4 + extra)
      = Some ([1000; 2000; 4000], inl (HolidaysApiError m st code))) /\
  (forall (countryIsoCode : string) (year : option Z)
          (m : string) (st : option Z) (code : option string) (extra : nat),
      retryLoop (useHolidays countryIsoCode year)
        (fun _ => inl (HolidaysApiError m st code)) 0 (3 + extra)
      = Some (if Js.includes "404" m then [] else [1000; 2000],
              inl (HolidaysApiError m st code))) /\
  (forall (attempt : nat -> ApiFailure + Zod.json) (extra : nat),
      exists (ds : list Z) (r : ApiFailure + Zod.json),
        retryLoop useCountries attempt 0 (4 + extra) = Some (ds, r) /\
        (length ds <= 3)%nat) /\
  (forall (countryIsoCode : string) (year : option Z)
          (attempt : nat -> ApiFailure + Zod.json) (extra : nat),
      exists (ds : list Z) (r : ApiFailure + Zod.json),
        retryLoop (useHolidays countryIsoCode year) attempt 0 (3 + extra)
        = Some (ds, r) /\
        (length ds <= 2)%nat).
Proof.
  refine (conj _ (conj _ (conj _ (conj _ (conj _ (conj _ (conj _ _))))))).
  - intros n. reflexivity.
  - intros iso year n. reflexivity.
  - intros m st code failureCount. reflexivity.
  - intros iso year m st code failureCount.
    cbn [retry useHolidays toError errorName errorMessage String.eqb].
    cbn. destruct (Js.includes "404" m); reflexivity.
  - intros m st code extra.
    change (4 + extra)%nat with (S (S (S (S extra)))).
    reflexivity.
  - intros iso year m st code extra.
    change (3 + extra)%nat with (S (S (S extra))).
    cbn [retryLoop retry useHolidays toError errorName errorMessage].
    change (String.eqb "HolidaysApiError" "ValidationError") with false.
    cbv iota.
    destruct (Js.includes "404" m); reflexivity.
  - intros attempt extra.
    destruct (retryLoop_total useCountries 3 attempt
                useCountries_retry_ceiling (4 + extra) 0)
      as (ds & r & Hrun & Hlen); [lia|].
    exists ds, r. split; [exact Hrun | lia].
  - intros iso year attempt extra.
    destruct (retryLoop_total (useHolidays iso year) 2 attempt
                (useHolidays_retry_ceiling iso year) (3 + extra) 0)
      as (ds & r & Hrun & Hlen); [lia|].
    exists ds, r. split; [exact Hrun | lia].
Qed.

(** ** The API client *)

(** C1 (the code at a 404 from the holidays endpoint): the client rejects
    with a [HolidaysApiError] of status 404, the NotFound kind, whose
    message is built from the status text and does not mention the
    status code; the retry predicate of the holidays hook, which looks
    for 404 in the message, therefore answers true for it. *)
Theorem holidays_404_is_retried :
  let notFound : Settled Response :=
    Fulfilled {| status := 404; statusText := "Not Found";
                 json := Fulfilled (JArray []) |} in
  let failure :=
    HolidaysApiError "API request failed: Not Found" (Some 404) None in
  fetchHolidays (fun _ => notFound) 2025 "US" None = inl failure /\
  kindOf failure = NotFound /\
  retry (useHolidays "US" None) 0 (toError failure) = true /\
  retry (useHolidays "US" None) 1 (toError failure) = true /\
  retryLoop (useHolidays "US" None) (fun _ => inl failure) 0 3
  = Some ([1000; 2000], inl failure).
Proof.
  cbv zeta. repeat (split; [reflexivity|]). reflexivity.
Qed.

(** The path of [fetchWithValidation] through a successful response
    whose body is JSON that the schema rejects. *)
Lemma fetchWithValidation_invalid :
  forall (fetch : Transport) (url : string) (s : schema)
         (response : Response) (data : Zod.json) (e : ZodError),
    fetch url = Fulfilled response ->
    ok response = true ->
    json response = Fulfilled data ->
    parse s data = Err e ->
    fetchWithValidation fetch url s
    = inl (ValidationError "Invalid API response format" e).
Proof.
  intros fetch url s response data e Hfetch Hok Hjson Hparse.
  unfold fetchWithValidation, tryBlock.
  rewrite Hfetch, Hok. cbn [negb]. rewrite Hjson, Hparse. reflexivity.
Qed.

(** The path through a successful response whose body the schema
    accepts. *)
Lemma fetchWithValidation_valid :
  forall (fetch : Transport) (url : string) (s : schema)
         (response : Response) (data validatedData : Zod.json),
    fetch url = Fulfilled response ->
    ok response = true ->
    json response = Fulfilled data ->
    parse s data = Ok validatedData ->
    fetchWithValidation fetch url s = inr validatedData.
Proof.
  intros fetch url s response data validatedData Hfetch Hok Hjson Hparse.
  unfold fetchWithValidation, tryBlock.
  rewrite Hfetch, Hok. cbn [negb]. rewrite Hjson, Hparse. reflexivity.
Qed.

(** C5: a successful (2xx) response whose body is JSON but fails the
    schema makes the client reject with a [ValidationError] that carries
    the validator's error as its cause; the failure is of the Validation
    kind, never a [HolidaysApiError]. *)
Theorem schema_failure_is_validation_error :
  forall (fetch : Transport) (url : string) (s : schema)
         (response : Response) (data : Zod.json) (e : ZodError),
    fetch url = Fulfilled response ->
    ok response = true ->
    json response = Fulfilled data ->
    parse s data = Err e ->
    fetchWithValidation fetch url s
    = inl (ValidationError "Invalid API response format" e) /\
    (forall f, fetchWithValidation fetch url s = inl f ->
               kindOf f = Validation /\
               errorName (toError f) = "ValidationError"%string).
Proof.
  intros fetch url s response data e Hfetch Hok Hjson Hparse.
  assert (Hrun : fetchWithValidation fetch url s
                 = inl (ValidationError "Invalid API response format" e))
    by (apply (fetchWithValidation_invalid fetch url s response data e);
        assumption).
  split; [exact Hrun|].
  intros f Hf. rewrite Hrun in Hf. injection Hf as <-. split; reflexivity.
Qed.

Lemma schema_failure_is_validation_error_witness :
  fetchWithValidation
    (fun _ => Fulfilled {| status := 200; statusText := "OK";
                           json := Fulfilled (JObject []) |})
    countriesUrl CountriesResponseSchema
  = inl (ValidationError "Invalid API response format" (invalidType "array")).
Proof.
  apply (schema_failure_is_validation_error
           (fun _ => Fulfilled {| status := 200; statusText := "OK";
                                  json := Fulfilled (JObject []) |})
           countriesUrl CountriesResponseSchema
           {| status := 200; statusText := "OK"; json := Fulfilled (JObject []) |}
           (JObject []) (invalidType "array"));
    reflexivity.
Defined.

(** The general form of the 404 case: whatever the status text, the
    failure is a [HolidaysApiError] of status 404, and it is retried
    exactly when its message does not contain 404 and fewer than two
    failures have occurred. *)
Lemma not_found_retry :
  forall (fetch : Transport) (thisYear : Z) (countryIsoCode : string)
         (year : option Z) (response : Response) (failureCount : nat),
    fetch (holidaysUrl thisYear countryIsoCode year) = Fulfilled response ->
    status response = 404 ->
    let failure :=
      HolidaysApiError ("API request failed: " ++ statusText response)%string
        (Some 404) None in
    fetchHolidays fetch thisYear countryIsoCode year = inl failure /\
    kindOf failure = NotFound /\
    retry (useHolidays countryIsoCode year) failureCount (toError failure)
    = negb (Js.includes "404"
              ("API request failed: " ++ statusText response)%string)
      && (failureCount <? 2)%nat.
Proof.
  intros fetch thisYear iso year response failureCount Hfetch Hstatus failure.
  split; [|split].
  - unfold fetchHolidays, fetchWithValidation, tryBlock.
    rewrite Hfetch. unfold ok. rewrite Hstatus. reflexivity.
  - reflexivity.
  - subst failure.
    cbn [retry useHolidays toError errorName errorMessage].
    change (String.eqb "HolidaysApiError" "ValidationError") with false.
    cbv iota.
    destruct (Js.includes "404" _); reflexivity.
Qed.

(** C6 (as stated, refuted): with the year argument 0 the request is not
    built for the year 0 but for the current calendar year. *)
Lemma year_zero_requests_current_year :
  holidaysUrl 2025 "US" (Some 0)
  <> Spec.holidaysRequest "US" (Spec.requestedYear 2025 (Some 0)) /\
  holidaysUrl 2025 "US" (Some 0) = Spec.holidaysRequest "US" 2025.
Proof.
  split; [intros H; vm_compute in H; discriminate H | reflexivity].
Qed.

(** C6 (amended): [fetchHolidays] requests the URL of section 6 for the
    given country, in English, from January 1st to December 31st of the
    given year, and of the current calendar year when the year is omitted
    or is 0; the request goes to the transport with the holidays
    schema. *)
Theorem fetchHolidays_request :
  forall (thisYear : Z) (countryIsoCode : string) (year : option Z),
    holidaysUrl thisYear countryIsoCode year
    = Spec.holidaysRequest countryIsoCode
        match year with
        | Some 0 | None => thisYear
        | Some y => y
        end /\
    forall fetch : Transport,
      fetchHolidays fetch thisYear countryIsoCode year
      = fetchWithValidation fetch
          (Spec.holidaysRequest countryIsoCode
             match year with
             | Some 0 | None => thisYear
             | Some y => y
             end)
          HolidaysResponseSchema.
Proof.
  intros thisYear iso year.
  assert (Hurl : holidaysUrl thisYear iso year
                 = Spec.holidaysRequest iso
                     match year with
                     | Some 0 | None => thisYear
                     | Some y => y
                     end).
  { unfold holidaysUrl, Spec.holidaysRequest, Js.orNumber, API_BASE_URL.
    destruct year as [[|p|p]|]; reflexivity. }
  split; [exact Hurl|].
  intros fetch. unfold fetchHolidays. rewrite Hurl. reflexivity.
Qed.

(** ** The localization helper *)

Section LocalizedText.

Variable preferredLanguage : string.

(** [items.find(p)] is the first entry that satisfies [p]. *)
Lemma find_first {A : Type} (p : A -> bool) (items : list A) (entry : A) :
  List.find p items = Some entry <->
  exists pre post,
    items = pre ++ entry :: post /\
    (forall x, In x pre -> p x = false) /\
    p entry = true.
Proof.
  split.
  - induction items as [|x items IH]; cbn [List.find]; [discriminate|].
    destruct (p x) eqn:Hpx.
    + intros [= ->]. exists [], items. repeat split; [|exact Hpx].
      intros y [].
    + intros Hfind. destruct (IH Hfind) as (pre & post & -> & Hpre & Hp).
      exists (x :: pre), post. repeat split; [|exact Hp].
      intros y [<-|Hin]; [exact Hpx | exact (Hpre y Hin)].
  - intros (pre & post & -> & Hpre & Hp).
    induction pre as [|x pre IH]; cbn [List.find app].
    + rewrite Hp. reflexivity.
    + rewrite (Hpre x (or_introl eq_refl)).
      apply IH. intros y Hin. apply Hpre. right. exact Hin.
Qed.

(** The value of [getLocalizedText], case by case. *)
Lemma getLocalizedText_unfold (items : list LocalizedText) :
  getLocalizedText items preferredLanguage
  = match List.find (matchesLanguage preferredLanguage) items with
    | Some entry =>
        if String.eqb (text entry) "" then Spec.fallbackText items else text entry
    | None => Spec.fallbackText items
    end.
Proof.
  unfold getLocalizedText, Spec.fallbackText. cbv zeta.
  destruct (List.find (matchesLanguage preferredLanguage) items)
    as [entry|]; cbn [option_map].
  - unfold Js.orUndef, Js.truthy.
    destruct (String.eqb (text entry) "") eqn:He; cbn [negb].
    + destruct items as [|first rest]; reflexivity.
    + cbn [Js.orStr]. rewrite He. reflexivity.
  - unfold Js.orUndef, Js.truthy.
    destruct items as [|first rest]; reflexivity.
Qed.

Lemma fallbackText_not_empty (items : list LocalizedText) :
  Spec.fallbackText items <> ""%string.
Proof.
  unfold Spec.fallbackText. destruct items as [|first rest]; [discriminate|].
  destruct (String.eqb (text first) "") eqn:He; [discriminate|].
  apply String.eqb_neq. exact He.
Qed.

End LocalizedText.

(** C7 (as stated, refuted): the entry matching the preferred language
    has an empty text here, and the result is the text of the first entry
    rather than the matching entry's text. *)
Lemma getLocalizedText_skips_empty_match :
  let items := [ {| language := "de"; text := "Weihnachten" |};
                 {| language := "en"; text := "" |} ] in
  getLocalizedText items "en" = "Weihnachten"%string /\
  Spec.pickLocalizedText items "en" = ""%string /\
  getLocalizedText items "en" <> Spec.pickLocalizedText items "en".
Proof.
  cbv zeta. split; [reflexivity|]. split; [reflexivity|].
  intros H. vm_compute in H. discriminate H.
Qed.

(** C7 (amended): [getLocalizedText] returns the text of the first entry
    whose language equals the preferred language case-insensitively when
    that text is not empty; otherwise the text of the first entry when
    that is not empty; otherwise the literal Unknown; on lists whose
    texts are all non-empty it is the function of the specification. *)
Theorem getLocalizedText_amended :
  forall (items : list LocalizedText) (preferredLanguage : string),
    (forall pre entry post,
        items = pre ++ entry :: post ->
        (forall x, In x pre -> matchesLanguage preferredLanguage x = false) ->
        matchesLanguage preferredLanguage entry = true ->
        text entry <> ""%string ->
        getLocalizedText items preferredLanguage = text entry) /\
    (forall first rest,
        items = first :: rest ->
        text first <> ""%string ->
        (forall entry,
            List.find (matchesLanguage preferredLanguage) items = Some entry ->
            text entry = ""%string) ->
        getLocalizedText items preferredLanguage = text first) /\
    ((forall entry,
         List.find (matchesLanguage preferredLanguage) items = Some entry ->
         text entry = ""%string) ->
     (forall first rest, items = first :: rest -> text first = ""%string) ->
     getLocalizedText items preferredLanguage = "Unknown"%string) /\
    ((forall x, In x items -> text x <> ""%string) ->
     getLocalizedText items preferredLanguage
     = Spec.pickLocalizedText items preferredLanguage).
Proof.
  intros items preferredLanguage.
  rewrite getLocalizedText_unfold.
  refine (conj _ (conj _ (conj _ _))).
  - intros pre entry post Hitems Hpre Hmatch Htext.
    assert (Hfind : List.find (matchesLanguage preferredLanguage) items
                    = Some entry).
    { apply find_first. exists pre, post. auto. }
    rewrite Hfind. apply String.eqb_neq in Htext. rewrite Htext. reflexivity.
  - intros first rest Hitems Hfirst Hempty.
    assert (Hfb : Spec.fallbackText items = text first).
    { subst items. cbn [Spec.fallbackText].
      apply String.eqb_neq in Hfirst. rewrite Hfirst. reflexivity. }
    destruct (List.find (matchesLanguage preferredLanguage) items)
      as [entry|] eqn:Hfind; [|exact Hfb].
    rewrite (Hempty entry eq_refl). exact Hfb.
  - intros Hempty Hfirst.
    assert (Hfb : Spec.fallbackText items = "Unknown"%string).
    { destruct items as [|first rest]; [reflexivity|].
      cbn [Spec.fallbackText]. rewrite (Hfirst first rest eq_refl).
      reflexivity. }
    destruct (List.find (matchesLanguage preferredLanguage) items)
      as [entry|] eqn:Hfind; [|exact Hfb].
    rewrite (Hempty entry eq_refl). exact Hfb.
  - intros Hnonempty. unfold Spec.pickLocalizedText.
    assert (Hsame : forall l : list LocalizedText,
               List.find (fun item =>
                            String.eqb (Js.toLowerCase preferredLanguage)
                                       (Js.toLowerCase (language item))) l
               = List.find (matchesLanguage preferredLanguage) l).
    { induction l as [|x l IH]; [reflexivity|]. cbn [List.find].
      unfold matchesLanguage at 1. rewrite String.eqb_sym, IH. reflexivity. }
    rewrite Hsame.
    destruct (List.find (matchesLanguage preferredLanguage) items)
      as [entry|] eqn:Hfind.
    + apply List.find_some in Hfind. destruct Hfind as [Hin _].
      apply Hnonempty, String.eqb_neq in Hin. rewrite Hin. reflexivity.
    + destruct items as [|first rest]; [reflexivity|].
      cbn [Spec.fallbackText].
      assert (Hf : text first <> ""%string)
        by (apply Hnonempty; left; reflexivity).
      apply String.eqb_neq in Hf. rewrite Hf. reflexivity.
Qed.

Lemma getLocalizedText_amended_witness :
  getLocalizedText
    [ {| language := "de"; text := "Weihnachten" |};
      {| language := "EN"; text := "Christmas" |} ] "en"
  = "Christmas"%string.
Proof.
  apply (proj1 (getLocalizedText_amended
                  [ {| language := "de"; text := "Weihnachten" |};
                    {| language := "EN"; text := "Christmas" |} ] "en")
               [ {| language := "de"; text := "Weihnachten" |} ]
               {| language := "EN"; text := "Christmas" |} []).
  - reflexivity.
  - intros x [<-|[]]. reflexivity.
  - reflexivity.
  - discriminate.
Defined.

(** C10: the result of [getLocalizedText] is never the empty string; when
    the entry matching the preferred language has an empty text the
    result is the text of the first entry, and the literal Unknown when
    that is empty too or the list has no entries. *)
Theorem getLocalizedText_never_empty :
  forall (items : list LocalizedText) (preferredLanguage : string),
    getLocalizedText items preferredLanguage <> ""%string /\
    (forall entry,
        List.find (matchesLanguage preferredLanguage) items = Some entry ->
        text entry = ""%string ->
        getLocalizedText items preferredLanguage
        = match items with
          | first :: _ =>
              if String.eqb (text first) "" then "Unknown"%string
              else text first
          | [] => "Unknown"%string
          end) /\
    (items = [] -> getLocalizedText items preferredLanguage = "Unknown"%string).
Proof.
  intros items preferredLanguage.
  rewrite getLocalizedText_unfold.
  refine (conj _ (conj _ _)).
  - destruct (List.find (matchesLanguage preferredLanguage) items)
      as [entry|]; [|apply fallbackText_not_empty].
    destruct (String.eqb (text entry) "") eqn:He;
      [apply fallbackText_not_empty | apply String.eqb_neq; exact He].
  - intros entry Hfind Htext. rewrite Hfind, Htext. reflexivity.
  - intros ->. reflexivity.
Qed.

Lemma getLocalizedText_never_empty_witness :
  getLocalizedText
    [ {| language := "de"; text := "Weihnachten" |};
      {| language := "en"; text := "" |} ] "en"
  = "Weihnachten"%string.
Proof.
  apply (proj1 (proj2 (getLocalizedText_never_empty
                  [ {| language := "de"; text := "Weihnachten" |};
                    {| language := "en"; text := "" |} ] "en"))
               {| language := "en"; text := "" |});
    reflexivity.
Defined.

(** The three examples of section 8 hold of the code. *)
Example getLocalizedText_examples :
  getLocalizedText [ {| language := "de"; text := "Weihnachten" |};
                     {| language := "en"; text := "Christmas" |} ] "en"
  = "Christmas"%string /\
  getLocalizedText [ {| language := "de"; text := "Weihnachten" |} ] "en"
  = "Weihnachten"%string /\
  getLocalizedText [] "en" = "Unknown"%string.
Proof. repeat split. Qed.

(** ** The schema validator *)

Section Validator.

(** A failing element makes the whole array fail. *)
Lemma parseItems_failing (p : Zod.json -> result Zod.json) :
  forall (items : list Zod.json) (i : nat) (x : Zod.json),
    In x items ->
    (exists e, p x = Err e) ->
    exists e, parseItems p i items = Err e.
Proof.
  induction items as [|y items IH]; intros i x Hin Hx; [destruct Hin|].
  cbn [parseItems].
  destruct Hin as [->|Hin].
  - destruct Hx as [e ->].
    destruct (parseItems p (S i) items); eauto.
  - destruct (IH (S i) x Hin Hx) as [e ->].
    destruct (p y); eauto.
Qed.

(** Parsing succeeds on an array exactly when it succeeds on every
    element, and then keeps the length. *)
Lemma parseItems_length (p : Zod.json -> result Zod.json) :
  forall (items out : list Zod.json) (i : nat),
    parseItems p i items = Ok out -> length out = length items.
Proof.
  induction items as [|y items IH]; intros out i; cbn [parseItems].
  - intros [= <-]. reflexivity.
  - destruct (p y) as [y'|e]; destruct (parseItems p (S i) items) as [ys|e'] eqn:Hrest;
      try discriminate.
    intros [= <-]. cbn [length]. f_equal. exact (IH ys (S i) Hrest).
Qed.

(** A failing key makes the whole object fail. *)
Lemma collectFields_failing :
  forall (rs : list (string * result (option Zod.json))) (k : string) (e : ZodError),
    In (k, Err e) rs -> exists e', collectFields rs = Err e'.
Proof.
  induction rs as [|[k' r] rs IH]; intros k e Hin; [destruct Hin|].
  cbn [collectFields].
  destruct Hin as [[= -> ->]|Hin].
  - destruct (collectFields rs); eauto.
  - destruct (IH k e Hin) as [e' ->].
    destruct r as [[y|]|e0]; eauto.
Qed.

(** An object schema fails on a value that lacks one of its required
    keys, and on a value that is not an object. *)
Lemma parse_object_missing_key :
  forall (shape : list (string * schema)) (k : string) (sk : schema) (v : Zod.json),
    In (k, sk) shape ->
    (forall inner, sk <> ZOptional inner) ->
    getField k v = None ->
    exists e, parse (ZObject shape) v = Err e.
Proof.
  intros shape k sk v Hin Hreq Hget.
  destruct v as [| b | n | s | items | fields];
    try (eexists; reflexivity).
  cbn [getField] in Hget. cbn [parse].
  set (rs := map _ shape).
  assert (Hrs : In (k, Err (invalidType (typeName sk))) rs).
  { subst rs. apply in_map_iff. exists (k, sk). split; [|exact Hin].
    rewrite Hget. f_equal.
    destruct sk; try reflexivity. exfalso. exact (Hreq sk eq_refl). }
  destruct (collectFields_failing rs k _ Hrs) as [e' ->]. eauto.
Qed.

Lemma parseItems_strings :
  forall (l : list string) (i : nat),
    parseItems (parse ZString) i (map JString l) = Ok (map JString l).
Proof.
  induction l as [|s l IH]; intros i; [reflexivity|].
  cbn [map parseItems parse]. rewrite IH. reflexivity.
Qed.

Lemma parse_localizedText (t : LocalizedText) :
  parse LocalizedTextSchema (localizedTextJson t) = Ok (localizedTextJson t).
Proof. reflexivity. Qed.

Lemma parseItems_localizedTexts :
  forall (l : list LocalizedText) (i : nat),
    parseItems (parse LocalizedTextSchema) i (map localizedTextJson l)
    = Ok (map localizedTextJson l).
Proof.
  induction l as [|t l IH]; intros i; [reflexivity|].
  cbn [map parseItems]. rewrite parse_localizedText, IH. reflexivity.
Qed.

Lemma parse_country (c : Country) :
  parse CountrySchema (countryJson c) = Ok (countryJson c).
Proof.
  unfold CountrySchema, countryJson.
  cbn [parse map lookupField String.eqb Ascii.eqb Bool.eqb defined collectFields].
  fold LocalizedTextSchema.
  rewrite parseItems_localizedTexts, parseItems_strings. reflexivity.
Qed.

Lemma parseItems_countries :
  forall (cs : list Country) (i : nat),
    parseItems (parse CountrySchema) i (map countryJson cs)
    = Ok (map countryJson cs).
Proof.
  induction cs as [|c cs IH]; intros i; [reflexivity|].
  cbn [map parseItems]. rewrite parse_country, IH. reflexivity.
Qed.

End Validator.

Section ValidatorOutput.

(** When every accepted element is mapped to [f] of itself, so is an
    accepted array. *)
Lemma parseItems_ok_map (p : Zod.json -> result Zod.json)
    (f : Zod.json -> Zod.json) :
  (forall x y, p x = Ok y -> y = f x) ->
  forall (items out : list Zod.json) (i : nat),
    parseItems p i items = Ok out -> out = map f items.
Proof.
  intros Hp. induction items as [|x items IH]; intros out i; cbn [parseItems].
  - intros [= <-]. reflexivity.
  - destruct (p x) as [y|e] eqn:Hx;
      destruct (parseItems p (S i) items) as [ys|e'] eqn:Hrest;
      try discriminate.
    intros [= <-]. cbn [map]. f_equal; [exact (Hp x y Hx) | exact (IH ys (S i) Hrest)].
Qed.

Lemma collectFields_ok_inv (k : string) (r : result (option Zod.json))
    (rs : list (string * result (option Zod.json)))
    (ys : list (string * Zod.json)) :
  collectFields ((k, r) :: rs) = Ok ys ->
  exists o ys',
    r = Ok o /\ collectFields rs = Ok ys' /\
    ys = match o with Some y => (k, y) :: ys' | None => ys' end.
Proof.
  cbn [collectFields].
  destruct r as [[y|]|e]; destruct (collectFields rs) as [ys'|e'];
    try discriminate; intros [= <-]; eauto.
Qed.

(** A required key of an accepted object is present and accepted. *)
Lemma required_field_inv (sk : schema) (found : option Zod.json)
    (o : option Zod.json) :
  (forall inner, sk <> ZOptional inner) ->
  match found with
  | Some x => defined (parse sk x)
  | None => missing sk
  end = Ok o ->
  exists x y, found = Some x /\ parse sk x = Ok y /\ o = Some y.
Proof.
  intros Hreq. destruct found as [x|].
  - destruct (parse sk x) as [y|e] eqn:Hx; cbn [defined]; [|discriminate].
    intros [= <-]. eauto.
  - destruct sk; cbn [missing]; try discriminate.
    exfalso. exact (Hreq sk eq_refl).
Qed.

Lemma parse_string_inv (v w : Zod.json) :
  parse ZString v = Ok w -> w = v /\ w = JString (asString (Some v)).
Proof.
  destruct v; cbn [parse]; try discriminate. intros [= <-]. split; reflexivity.
Qed.

Lemma parse_array (element : schema) (items : list Zod.json) :
  parse (ZArray element) (JArray items)
  = match parseItems (parse element) 0 items with
    | Ok ys => Ok (JArray ys)
    | Err e => Err e
    end.
Proof. reflexivity. Qed.

Lemma parse_object (shape : list (string * schema))
    (fields : list (string * Zod.json)) :
  parse (ZObject shape) (JObject fields)
  = match collectFields
            (map (fun ks : string * schema =>
                    let (k, sk) := ks in
                    (k, match lookupField k fields with
                        | Some x => defined (parse sk x)
                        | None => missing sk
                        end)) shape) with
    | Ok ys => Ok (JObject ys)
    | Err e => Err e
    end.
Proof. reflexivity. Qed.

Lemma parse_strings_inv (v w : Zod.json) :
  parse (ZArray ZString) v = Ok w ->
  w = JArray (map JString (map (fun x => asString (Some x)) (asItems (Some v)))).
Proof.
  destruct v as [| | | |items|]; try (cbn [parse]; discriminate).
  rewrite parse_array.
  destruct (parseItems (parse ZString) 0 items) as [ys|e] eqn:Hitems;
    [|discriminate].
  intros [= <-]. cbn [asItems]. f_equal. rewrite map_map.
  apply (parseItems_ok_map (parse ZString)) with (i := 0%nat); [|exact Hitems].
  intros x y Hxy. apply parse_string_inv in Hxy. tauto.
Qed.

Lemma parse_localizedText_inv (v w : Zod.json) :
  parse LocalizedTextSchema v = Ok w ->
  w = localizedTextJson (asLocalizedText v).
Proof.
  destruct v as [| | | | |fields]; try (cbn [parse LocalizedTextSchema]; discriminate).
  unfold LocalizedTextSchema. rewrite parse_object. cbn [map].
  destruct (collectFields _) as [ys|e] eqn:Hfields; [|discriminate].
  intros [= <-].
  apply collectFields_ok_inv in Hfields.
  destruct Hfields as (o1 & ys1 & H1 & Hfields & ->).
  apply collectFields_ok_inv in Hfields.
  destruct Hfields as (o2 & ys2 & H2 & Hfields & ->).
  cbn [collectFields] in Hfields. injection Hfields as <-.
  apply required_field_inv in H1; [|discriminate].
  apply required_field_inv in H2; [|discriminate].
  destruct H1 as (x1 & y1 & Hl1 & Hp1 & ->).
  destruct H2 as (x2 & y2 & Hl2 & Hp2 & ->).
  apply parse_string_inv in Hp1, Hp2.
  destruct Hp1 as [_ ->], Hp2 as [_ ->].
  unfold localizedTextJson, asLocalizedText. cbn [language text getField].
  rewrite Hl1, Hl2. reflexivity.
Qed.

Lemma parse_localizedTexts_inv (v w : Zod.json) :
  parse (ZArray LocalizedTextSchema) v = Ok w ->
  w = JArray (map localizedTextJson (map asLocalizedText (asItems (Some v)))).
Proof.
  destruct v as [| | | |items|]; try (cbn [parse]; discriminate).
  rewrite parse_array.
  destruct (parseItems (parse LocalizedTextSchema) 0 items) as [ys|e] eqn:Hitems;
    [|discriminate].
  intros [= <-]. cbn [asItems]. f_equal. rewrite map_map.
  apply (parseItems_ok_map (parse LocalizedTextSchema)) with (i := 0%nat);
    [|exact Hitems].
  intros x y Hxy. apply parse_localizedText_inv. exact Hxy.
Qed.

(** What the country schema accepts, it returns as the JSON value of
    the typed country read from the input. *)
Lemma parse_country_inv (v w : Zod.json) :
  parse CountrySchema v = Ok w -> w = countryJson (asCountry v).
Proof.
  destruct v as [| | | | |fields]; try (cbn [parse CountrySchema]; discriminate).
  unfold CountrySchema. rewrite parse_object. cbn [map].
  destruct (collectFields _) as [ys|e] eqn:Hfields; [|discriminate].
  intros [= <-].
  apply collectFields_ok_inv in Hfields.
  destruct Hfields as (o1 & ys1 & H1 & Hfields & ->).
  apply collectFields_ok_inv in Hfields.
  destruct Hfields as (o2 & ys2 & H2 & Hfields & ->).
  apply collectFields_ok_inv in Hfields.
  destruct Hfields as (o3 & ys3 & H3 & Hfields & ->).
  cbn [collectFields] in Hfields. injection Hfields as <-.
  apply required_field_inv in H1; [|discriminate].
  apply required_field_inv in H2; [|discriminate].
  apply required_field_inv in H3; [|discriminate].
  destruct H1 as (x1 & y1 & Hl1 & Hp1 & ->).
  destruct H2 as (x2 & y2 & Hl2 & Hp2 & ->).
  destruct H3 as (x3 & y3 & Hl3 & Hp3 & ->).
  apply parse_string_inv in Hp1. destruct Hp1 as [_ ->].
  apply parse_localizedTexts_inv in Hp2. subst y2.
  apply parse_strings_inv in Hp3. subst y3.
  unfold countryJson, asCountry.
  cbn [isoCode name officialLanguages getField].
  rewrite Hl1, Hl2, Hl3. reflexivity.
Qed.

Lemma parse_countries_inv (items out : list Zod.json) :
  parse CountriesResponseSchema (JArray items) = Ok (JArray out) ->
  out = map countryJson (map asCountry items).
Proof.
  unfold CountriesResponseSchema. rewrite parse_array.
  destruct (parseItems (parse CountrySchema) 0 items) as [ys|e] eqn:Hitems;
    [|discriminate].
  intros [= <-]. rewrite map_map.
  apply (parseItems_ok_map (parse CountrySchema)) with (i := 0%nat);
    [|exact Hitems].
  intros x y Hxy. apply parse_country_inv. exact Hxy.
Qed.

Lemma asCountry_countryJson (c : Country) : asCountry (countryJson c) = c.
Proof.
  destruct c as [iso names langs]. unfold asCountry, countryJson.
  cbn [isoCode name officialLanguages getField lookupField String.eqb
       Ascii.eqb Bool.eqb asString asItems].
  f_equal.
  - rewrite map_map. induction names as [|[l t] names IH]; [reflexivity|].
    cbn [map]. rewrite IH. reflexivity.
  - rewrite map_map. induction langs as [|l langs IH]; [reflexivity|].
    cbn [map]. rewrite IH. reflexivity.
Qed.

End ValidatorOutput.

(** C4: the JSON array of any list of countries is accepted and returned
    as it is; whatever array is accepted comes back with the same length
    and, element by element, the same country fields; an array with an
    element that lacks [isoCode], [name] or [officialLanguages] is
    rejected, and the client turns the rejection into a
    [ValidationError]; the empty array is accepted. *)
Theorem countries_validation :
  (forall cs : list Country,
      parse CountriesResponseSchema (JArray (map countryJson cs))
      = Ok (JArray (map countryJson cs))) /\
  (forall (items : list Zod.json) (w : Zod.json),
      parse CountriesResponseSchema (JArray items) = Ok w ->
      exists out,
        w = JArray out /\
        length out = length items /\
        map asCountry out = map asCountry items) /\
  (forall (items : list Zod.json) (x : Zod.json) (key : string),
      In x items ->
      In key ["isoCode"; "name"; "officialLanguages"]%string ->
      getField key x = None ->
      exists e,
        parse CountriesResponseSchema (JArray items) = Err e /\
        forall (fetch : Transport) (response : Response),
          fetch countriesUrl = Fulfilled response ->
          ok response = true ->
          json response = Fulfilled (JArray items) ->
          fetchCountries fetch
          = inl (ValidationError "Invalid API response format" e)) /\
  parse CountriesResponseSchema (JArray []) = Ok (JArray []).
Proof.
  refine (conj _ (conj _ (conj _ _))).
  - intros cs. unfold CountriesResponseSchema. rewrite parse_array.
    rewrite parseItems_countries. reflexivity.
  - intros items w Hparse.
    assert (Hshape : exists out, w = JArray out).
    { unfold CountriesResponseSchema in Hparse. rewrite parse_array in Hparse.
      destruct (parseItems (parse CountrySchema) 0 items) as [ys|e];
        [|discriminate].
      injection Hparse as <-. eauto. }
    destruct Hshape as [out ->]. exists out.
    apply parse_countries_inv in Hparse. subst out.
    split; [reflexivity|]. split.
    + rewrite !length_map. reflexivity.
    + rewrite (map_map countryJson asCountry).
      rewrite (map_ext _ (fun c => c) asCountry_countryJson), map_id.
      reflexivity.
  - intros items x key Hin Hkey Hget.
    assert (Hx : exists e, parse CountrySchema x = Err e).
    { cbn [In] in Hkey.
      destruct Hkey as [<-|[<-|[<-|[]]]].
      - apply (parse_object_missing_key _ "isoCode" ZString);
          [left; reflexivity | discriminate | exact Hget].
      - apply (parse_object_missing_key _ "name" (ZArray LocalizedTextSchema));
          [right; left; reflexivity | discriminate | exact Hget].
      - apply (parse_object_missing_key _ "officialLanguages" (ZArray ZString));
          [right; right; left; reflexivity | discriminate | exact Hget]. }
    destruct (parseItems_failing (parse CountrySchema) items 0 x Hin Hx)
      as [e He].
    exists e.
    assert (Hparse : parse CountriesResponseSchema (JArray items) = Err e).
    { unfold CountriesResponseSchema. rewrite parse_array, He. reflexivity. }
    split; [exact Hparse|].
    intros fetch response Hfetch Hok Hjson.
    unfold fetchCountries.
    apply (fetchWithValidation_invalid fetch countriesUrl
             CountriesResponseSchema response (JArray items) e);
      assumption.
  - reflexivity.
Qed.

Lemma countries_validation_witness :
  exists e,
    parse CountriesResponseSchema
      (JArray [JObject [("isoCode", JString "US")]%string]) = Err e.
Proof.
  destruct (proj1 (proj2 (proj2 countries_validation))
              [JObject [("isoCode", JString "US")]%string]
              (JObject [("isoCode", JString "US")]%string)
              "name"%string) as [e [He _]].
  - left. reflexivity.
  - right. left. reflexivity.
  - reflexivity.
  - exists e. exact He.
Defined.

(** ** The query layer under the events of the application *)

Section CacheInvariant.

Lemma holidays_key_inj (iso iso' : string) (year year' : option Z) :
  queryKey (useHolidays iso year) = queryKey (useHolidays iso' year') ->
  iso = iso' /\ year = year'.
Proof.
  cbn [queryKey useHolidays]. unfold keyString, keyNumber.
  intros [= Hiso Hyear]. split; [exact Hiso|].
  destruct year, year'; cbn [option_map] in Hyear; congruence.
Qed.

Lemma holidays_key_not_countries (iso : string) (year : option Z) :
  queryKey (useHolidays iso year) <> queryKey useCountries.
Proof. cbn [queryKey useHolidays useCountries]. discriminate. Qed.

Lemma wellKeyed_known (k : QueryKey) (u : string) :
  wellKeyed k u -> knownKey k.
Proof.
  intros [[-> _]|(ty & iso & year & Hne & -> & _)].
  - left. reflexivity.
  - right. exists iso, year. split; [exact Hne | reflexivity].
Qed.

(** No known key is the key of an empty country code. *)
Lemma knownKey_not_empty_code (k : QueryKey) (year : option Z) :
  knownKey k -> k <> queryKey (useHolidays "" year).
Proof.
  intros [->|(iso & y & Hne & ->)] Heq.
  - symmetry in Heq. exact (holidays_key_not_countries _ _ Heq).
  - apply holidays_key_inj in Heq. destruct Heq as [-> _].
    apply Hne. reflexivity.
Qed.

(** A URL requested for a holidays key was built for its code and year. *)
Lemma wellKeyed_holidays (iso : string) (year : option Z) (u : string) :
  wellKeyed (queryKey (useHolidays iso year)) u ->
  exists thisYear, u = holidaysUrl thisYear iso year.
Proof.
  intros [[Hk _]|(ty & iso' & year' & _ & Hk & ->)].
  - exfalso. exact (holidays_key_not_countries _ _ Hk).
  - apply holidays_key_inj in Hk. destruct Hk as [<- <-]. eauto.
Qed.

Lemma useCountries_keyed : keyed useCountries.
Proof. intros ty. left. split; reflexivity. Qed.

Lemma useHolidays_keyed (iso : string) (year : option Z) :
  iso <> ""%string -> keyed (useHolidays iso year).
Proof.
  intros Hne ty. right. exists ty, iso, year.
  split; [exact Hne|]. split; reflexivity.
Qed.

Lemma Inv_empty : Inv emptyCache.
Proof.
  split; cbn [inflight calls entries emptyCache].
  - constructor.
  - constructor.
  - intros k e Hk. rewrite lookup_empty in Hk. discriminate.
Qed.

Lemma Inv_start (o : QueryOptions) (c : Cache) :
  keyed o -> Inv c -> Inv (start o c).
Proof.
  intros Ho [Hin Hcalls Hent].
  split; cbn [inflight calls entries start].
  - apply Forall_app. split; [exact Hin|].
    constructor; [|constructor]. cbn [forKey request]. apply Ho.
  - constructor; [|exact Hcalls]. cbn [fst snd]. apply Ho.
  - intros k e Hk.
    apply lookup_insert_Some in Hk.
    destruct Hk as [[<- <-]|[_ Hk]]; [|exact (Hent k e Hk)].
    split; [exact (wellKeyed_known _ _ (Ho (thisYear c)))|].
    cbn [servedFrom]. intros u Hu.
    destruct (entries c !! queryKey o) as [old|] eqn:Hold;
      cbn in Hu; [|discriminate].
    destruct (Hent _ _ Hold) as [_ Hserved]. exact (Hserved u Hu).
Qed.

Lemma Inv_access (o : QueryOptions) (c : Cache) :
  (enabled o = true -> keyed o) -> Inv c -> Inv (access o c).
Proof.
  intros Ho HI. unfold access.
  destruct (enabled o) eqn:Hen; cbn [negb]; [|exact HI].
  specialize (Ho eq_refl).
  destruct (entries c !! queryKey o) as [e|]; [|apply Inv_start; assumption].
  destruct (state e); try exact HI. apply Inv_start; assumption.
Qed.

Lemma useHolidays_enabled (iso : string) (year : option Z) :
  enabled (useHolidays iso year) = true -> iso <> ""%string.
Proof.
  cbn [enabled useHolidays]. intros Hen ->. discriminate Hen.
Qed.

(** [HolidayList] renders nothing for an empty country code, whatever
    the hooks return. *)
Lemma HolidayList_empty_code (countries holidays : QueryResult)
    (currentYear : Z) :
  HolidayList countries holidays "" currentYear = Null.
Proof. reflexivity. Qed.

Lemma viewOf_error_code (c : Cache) (iso title message : string) :
  viewOf c iso = ErrorDisplay title message -> iso <> ""%string.
Proof.
  intros Hview ->. unfold viewOf in Hview.
  rewrite HolidayList_empty_code in Hview. discriminate Hview.
Qed.

Lemma Inv_settle (i : nat) (answer : Settled Response) (c : Cache) :
  Inv c -> Inv (settle i answer c).
Proof.
  intros [Hin Hcalls Hent]. unfold settle.
  destruct (inflight c !! i) as [a|] eqn:Ha; [|split; assumption].
  pose proof (Forall_lookup_1 _ _ _ _ Hin Ha) as Hkeyed.
  split; cbn [inflight calls entries].
  - apply Forall_delete. exact Hin.
  - exact Hcalls.
  - intros k e.
    destruct (entries c !! forKey a) as [old|] eqn:Hold; [|apply Hent].
    destruct (Hent _ _ Hold) as [Hknown Hserved].
    destruct (negb (latest old =? seq a)%nat); [apply Hent|].
    destruct (fetchWithValidation _ _ _) as [f|v]; intros Hk;
      apply lookup_insert_Some in Hk;
      destruct Hk as [[<- <-]|[_ Hk]]; try exact (Hent k e Hk);
      (split; [exact Hknown|]); cbn [servedFrom].
    + exact Hserved.
    + intros u [= <-]. exact Hkeyed.
Qed.

Lemma Inv_advance (year now : Z) (c : Cache) :
  Inv c -> Inv (advance year now c).
Proof.
  intros [Hin Hcalls Hent].
  split; cbn [inflight calls entries advance]; try assumption.
  intros k e Hk. apply lookup_fmap_Some in Hk.
  destruct Hk as (e0 & <- & Hk). destruct (Hent _ _ Hk) as [Hknown Hserved].
  split; [exact Hknown|].
  unfold expireEntry.
  destruct (state e0); try exact Hserved.
  destruct (fetchedAt e0 + ttl e0 <=? now); exact Hserved.
Qed.

Lemma Inv_step (c : Cache) (ev : Event) : Inv c -> Inv (step c ev).
Proof.
  intros HI. destruct ev as [iso|iso year|iso|i answer|year now]; cbn [step].
  - apply Inv_access.
    + intros Hen. apply useHolidays_keyed.
      exact (useHolidays_enabled _ _ Hen).
    + apply Inv_access; [|exact HI]. intros _. exact useCountries_keyed.
  - apply Inv_access; [|exact HI].
    intros Hen. apply useHolidays_keyed. exact (useHolidays_enabled _ _ Hen).
  - destruct (viewOf c iso) as [|title message|heading body] eqn:Hview;
      try exact HI.
    unfold refetch. apply Inv_start; [|exact HI].
    apply useHolidays_keyed. exact (viewOf_error_code _ _ _ _ Hview).
  - apply Inv_settle. exact HI.
  - apply Inv_advance. exact HI.
Qed.

Lemma Inv_fold (events : list Event) :
  forall c, Inv c -> Inv (fold_left step events c).
Proof.
  induction events as [|ev events IH]; intros c HI; cbn [fold_left].
  - exact HI.
  - apply IH, Inv_step, HI.
Qed.

Lemma Inv_run (events : list Event) : Inv (run events).
Proof. apply Inv_fold, Inv_empty. Qed.

(** A response changes no entry but the one of the key its attempt was
    started for. *)
Lemma settle_frame (i : nat) (answer : Settled Response) (c : Cache)
    (a : Attempt) (k : QueryKey) :
  inflight c !! i = Some a ->
  k <> forKey a ->
  entries (settle i answer c) !! k = entries c !! k.
Proof.
  intros Ha Hk. unfold settle. rewrite Ha. cbn [entries].
  destruct (entries c !! forKey a) as [old|]; [|reflexivity].
  destruct (negb (latest old =? seq a)%nat); [reflexivity|].
  destruct (fetchWithValidation _ _ _) as [f|v];
    apply lookup_insert_ne; congruence.
Qed.

End CacheInvariant.

(** C8: for an empty country code the holidays query is disabled; reading
    it changes nothing; after any events no network call and no attempt
    in flight belongs to its key, its key has no cache entry, the hook
    exposes neither data nor an error nor a loading state, and
    [HolidayList] renders nothing rather than an error. *)
Theorem disabled_holidays_query_is_inert :
  forall (events : list Event) (year : option Z),
    enabled (useHolidays "" year) = false /\
    (forall c : Cache, access (useHolidays "" year) c = c) /\
    (forall (k : QueryKey) (u : string),
        In (k, u) (calls (run events)) ->
        k <> queryKey (useHolidays "" year)) /\
    (forall a : Attempt,
        In a (inflight (run events)) ->
        forKey a <> queryKey (useHolidays "" year)) /\
    entries (run events) !! queryKey (useHolidays "" year) = None /\
    read (useHolidays "" year) (run events)
    = {| data := None; isLoading := false; error := None |} /\
    (forall (countries holidays : QueryResult) (currentYear : Z),
        HolidayList countries holidays "" currentYear = Null).
Proof.
  intros events year.
  destruct (Inv_run events) as [Hin Hcalls Hent].
  assert (Hnone : entries (run events) !! queryKey (useHolidays "" year) = None).
  { destruct (entries (run events) !! queryKey (useHolidays "" year))
      as [e|] eqn:He; [|reflexivity].
    destruct (Hent _ _ He) as [Hknown _].
    exfalso. exact (knownKey_not_empty_code _ year Hknown eq_refl). }
  refine (conj _ (conj _ (conj _ (conj _ (conj _ (conj _ _)))))).
  - reflexivity.
  - intros c. reflexivity.
  - intros k u Hku.
    apply list_elem_of_In in Hku.
    rewrite Forall_forall in Hcalls. specialize (Hcalls _ Hku).
    cbn [fst snd] in Hcalls.
    exact (knownKey_not_empty_code _ year (wellKeyed_known _ _ Hcalls)).
  - intros a Ha.
    apply list_elem_of_In in Ha.
    rewrite Forall_forall in Hin. specialize (Hin _ Ha).
    exact (knownKey_not_empty_code _ year (wellKeyed_known _ _ Hin)).
  - exact Hnone.
  - unfold read. rewrite Hnone. reflexivity.
  - intros countries holidays currentYear. reflexivity.
Qed.

Lemma disabled_holidays_query_is_inert_witness :
  let events := [Render "US"; Render ""; UseHolidays "" (Some 2024);
                 TryAgain ""] in
  In (queryKey (useHolidays "US" None),
      holidaysUrl 1970 "US" None) (calls (run events)) /\
  queryKey (useHolidays "US" None) <> queryKey (useHolidays "" None).
Proof.
  cbv zeta.
  assert (Hin : In (queryKey (useHolidays "US" None),
                    holidaysUrl 1970 "US" None)
                   (calls (run [Render "US"; Render "";
                                UseHolidays "" (Some 2024); TryAgain ""]))).
  { vm_compute. left. reflexivity. }
  split; [exact Hin|].
  exact (proj1 (proj2 (proj2 (disabled_holidays_query_is_inert
                                [Render "US"; Render "";
                                 UseHolidays "" (Some 2024); TryAgain ""]
                                None)))
               _ _ Hin).
Defined.

(** C9: after any events, the response to an attempt in flight changes no
    cache entry but the one of the key the attempt was started for; in
    particular the response to a fetch started for one country and year
    leaves the entry of every other country and year as it was; every
    attempt in flight for a holidays key requests the URL built for that
    key's country and year, and every value cached under a holidays key
    was served from such a URL. *)
Theorem no_cross_key_write :
  forall events : list Event,
    (forall (i : nat) (a : Attempt) (answer : Settled Response) (k : QueryKey),
        inflight (run events) !! i = Some a ->
        k <> forKey a ->
        entries (step (run events) (Settle i answer)) !! k
        = entries (run events) !! k) /\
    (forall (i : nat) (a : Attempt) (answer : Settled Response)
            (previous current : string) (previousYear currentYear : option Z),
        inflight (run events) !! i = Some a ->
        forKey a = queryKey (useHolidays previous previousYear) ->
        (previous, previousYear) <> (current, currentYear) ->
        entries (step (run events) (Settle i answer))
          !! queryKey (useHolidays current currentYear)
        = entries (run events) !! queryKey (useHolidays current currentYear)) /\
    (forall (a : Attempt) (countryIsoCode : string) (year : option Z),
        In a (inflight (run events)) ->
        forKey a = queryKey (useHolidays countryIsoCode year) ->
        exists thisYear,
          url (request a) = holidaysUrl thisYear countryIsoCode year) /\
    (forall (countryIsoCode : string) (year : option Z)
            (e : CacheEntry) (u : string),
        entries (run events) !! queryKey (useHolidays countryIsoCode year)
        = Some e ->
        servedFrom e = Some u ->
        exists thisYear, u = holidaysUrl thisYear countryIsoCode year).
Proof.
  intros events.
  destruct (Inv_run events) as [Hin Hcalls Hent].
  refine (conj _ (conj _ (conj _ _))).
  - intros i a answer k Ha Hk. cbn [step].
    exact (settle_frame i answer (run events) a k Ha Hk).
  - intros i a answer previous current previousYear currentYear Ha Hkey Hne.
    cbn [step]. apply (settle_frame i answer (run events) a); [exact Ha|].
    rewrite Hkey. intros Heq. apply holidays_key_inj in Heq.
    destruct Heq as [-> ->]. apply Hne. reflexivity.
  - intros a iso year Ha Hkey.
    apply list_elem_of_In in Ha.
    rewrite Forall_forall in Hin. specialize (Hin _ Ha).
    rewrite Hkey in Hin. exact (wellKeyed_holidays _ _ _ Hin).
  - intros iso year e u He Hu.
    destruct (Hent _ _ He) as [_ Hserved].
    exact (wellKeyed_holidays _ _ _ (Hserved u Hu)).
Qed.

Lemma no_cross_key_write_witness :
  let events := [Render "US"; Render "CA"] in
  let answer := Fulfilled {| status := 200; statusText := "OK";
                             json := Fulfilled (JArray []) |} in
  entries (step (run events) (Settle 1 answer))
    !! queryKey (useHolidays "CA" None)
  = entries (run events) !! queryKey (useHolidays "CA" None).
Proof.
  cbv zeta.
  apply (proj1 (proj2 (no_cross_key_write [Render "US"; Render "CA"]))
           1%nat
           {| forKey := queryKey (useHolidays "US" None);
              request := queryFn (useHolidays "US" None) 1970;
              seq := 1 |}
           _ "US"%string "CA"%string None None).
  - vm_compute. reflexivity.
  - reflexivity.
  - intros H. discriminate H.
Defined.

(** The scenario of section 8: the country changes from US to CA while
    the fetch for US is in flight; when the US response arrives, the CA
    key still has no data and the US key holds the response. *)
Example switch_country_in_flight :
  let answer := Fulfilled {| status := 200; statusText := "OK";
                             json := Fulfilled (JArray []) |} in
  let c := run [Render "US"; Render "CA"; Settle 1 answer] in
  read (useHolidays "CA" None) c
  = {| data := None; isLoading := true; error := None |} /\
  read (useHolidays "US" None) c
  = {| data := Some (JArray []); isLoading := false; error := None |} /\
  map forKey (inflight c)
  = [queryKey useCountries; queryKey (useHolidays "CA" None)].
Proof. vm_compute. repeat split. Qed.

(** * Further properties of the code *)

(** ** The API client: how every outcome arises *)

(** X1: whatever [fetchWithValidation] settles to tells what happened: a
    value is the schema's output on the JSON body of a 2xx response; a
    [ValidationError] carries the schema's error on such a body; a
    [HolidaysApiError] with a status comes from a response outside
    200-299 and repeats its status text; one without a status comes from
    a rejected fetch or an unreadable body and repeats the message of
    what was thrown. The [code] of a [HolidaysApiError] is never set. *)
Theorem fetchWithValidation_outcomes :
  forall (fetch : Transport) (url : string) (s : schema),
    match fetchWithValidation fetch url s with
    | inr validatedData =>
        exists response data,
          fetch url = Fulfilled response /\ ok response = true /\
          json response = Fulfilled data /\ parse s data = Ok validatedData
    | inl (ValidationError m e) =>
        m = "Invalid API response format"%string /\
        exists response data,
          fetch url = Fulfilled response /\ ok response = true /\
          json response = Fulfilled data /\ parse s data = Err e
    | inl (HolidaysApiError m (Some st) code) =>
        code = None /\
        exists response,
          fetch url = Fulfilled response /\ ok response = false /\
          st = status response /\
          m = ("API request failed: " ++ statusText response)%string
    | inl (HolidaysApiError m None code) =>
        code = None /\
        exists thrown,
          (fetch url = Rejected thrown \/
           exists response,
             fetch url = Fulfilled response /\ ok response = true /\
             json response = Rejected thrown) /\
          m = match thrown with
              | Js.ThrownError _ message => message
              | Js.ThrownOther => "Unknown error occurred"%string
              end
    end.
Proof.
  intros fetch url s. unfold fetchWithValidation, tryBlock.
  destruct (fetch url) as [response|thrown] eqn:Hfetch.
  - destruct (ok response) eqn:Hok; cbn [negb].
    + destruct (json response) as [data|thrown] eqn:Hjson.
      * destruct (parse s data) as [v|e] eqn:Hparse; cbn [catchBlock].
        -- exists response, data. auto.
        -- split; [reflexivity|]. exists response, data. auto.
      * cbn [catchBlock]. split; [reflexivity|]. exists thrown.
        split; [|reflexivity]. right. exists response. auto.
    + cbn [catchBlock]. split; [reflexivity|]. exists response. auto.
  - cbn [catchBlock]. split; [reflexivity|]. exists thrown.
    split; [|reflexivity]. left. reflexivity.
Qed.

(** X2: a response whose status is outside 200-299 is rejected before its
    body is looked at: the failure is the same whatever the body and the
    schema are, and the status it carries is never a 2xx status. *)
Theorem non_ok_response_ignores_body :
  forall (fetch : Transport) (url : string) (s : schema) (response : Response),
    fetch url = Fulfilled response ->
    ok response = false ->
    fetchWithValidation fetch url s
    = inl (HolidaysApiError
             ("API request failed: " ++ statusText response)%string
             (Some (status response)) None) /\
    (status response < 200 \/ 299 < status response).
Proof.
  intros fetch url s response Hfetch Hok. split.
  - unfold fetchWithValidation, tryBlock. rewrite Hfetch, Hok. reflexivity.
  - unfold ok in Hok. apply andb_false_iff in Hok.
    destruct Hok as [H|H]; apply Z.leb_gt in H; lia.
Qed.

Lemma non_ok_response_ignores_body_witness :
  fetchWithValidation
    (fun _ => Fulfilled {| status := 500; statusText := "Internal Server Error";
                           json := Fulfilled (JArray []) |})
    countriesUrl CountriesResponseSchema
  = inl (HolidaysApiError "API request failed: Internal Server Error"
           (Some 500) None).
Proof.
  apply (proj1 (non_ok_response_ignores_body
                  (fun _ => Fulfilled {| status := 500;
                                         statusText := "Internal Server Error";
                                         json := Fulfilled (JArray []) |})
                  countriesUrl CountriesResponseSchema
                  {| status := 500; statusText := "Internal Server Error";
                     json := Fulfilled (JArray []) |}
                  eq_refl eq_refl)).
Defined.

(** ** Array schemas *)

Lemma parseItems_each (p : Zod.json -> result Zod.json) :
  forall (items out : list Zod.json) (i : nat),
    parseItems p i items = Ok out ->
    Forall2 (fun x y => p x = Ok y) items out.
Proof.
  induction items as [|x items IH]; intros out i; cbn [parseItems].
  - intros [= <-]. constructor.
  - destruct (p x) as [y|e] eqn:Hx;
      destruct (parseItems p (S i) items) as [ys|e'] eqn:Hrest;
      try discriminate.
    intros [= <-]. constructor; [exact Hx | exact (IH ys (S i) Hrest)].
Qed.

(** X3: an array schema accepts arrays only, and all or nothing: what it
    accepts has as many elements as the input, each one the element
    schema's output on the input element at the same place; one element
    the element schema rejects makes it reject the whole array. *)
Theorem array_schema_all_or_nothing :
  forall (element : schema) (v : Zod.json),
    (forall w, parse (ZArray element) v = Ok w ->
       exists items out,
         v = JArray items /\ w = JArray out /\
         length out = length items /\
         Forall2 (fun x y => parse element x = Ok y) items out) /\
    (forall items x e,
       v = JArray items -> In x items -> parse element x = Err e ->
       exists e', parse (ZArray element) v = Err e').
Proof.
  intros element v. split.
  - intros w Hparse.
    destruct v as [| | | |items|]; try (cbn [parse] in Hparse; discriminate).
    rewrite parse_array in Hparse.
    destruct (parseItems (parse element) 0 items) as [out|e] eqn:Hitems;
      [|discriminate].
    injection Hparse as <-. exists items, out.
    split; [reflexivity|]. split; [reflexivity|]. split.
    + exact (parseItems_length _ _ _ _ Hitems).
    + exact (parseItems_each _ _ _ _ Hitems).
  - intros items x e -> Hin Hx. rewrite parse_array.
    destruct (parseItems_failing (parse element) items 0 x Hin (ex_intro _ e Hx))
      as [e' ->].
    eauto.
Qed.

Lemma array_schema_all_or_nothing_witness :
  exists e',
    parse HolidaysResponseSchema (JArray [JObject []; JNull]) = Err e'.
Proof.
  apply (proj2 (array_schema_all_or_nothing HolidaySchema
                  (JArray [JObject []; JNull]))
               [JObject []; JNull] JNull (invalidType "object")).
  - reflexivity.
  - right. left. reflexivity.
  - reflexivity.
Defined.

(** ** The retry options of the hooks *)





(** X5: whenever a hook's retry predicate allows a retry, the delay it
    gives is the plain doubling [1000 * 2^failureCount], at most 4000 ms
    for countries and 2000 ms for holidays: within the retries the hooks
    allow, the ceilings of 30000 and 10000 ms never apply. *)
Theorem retry_delay_uncapped :
  forall (countryIsoCode : string) (year : option Z)
         (failureCount : nat) (error : Error),
    (retry useCountries failureCount error = true ->
       retryDelay useCountries failureCount = 1000 * 2 ^ Z.of_nat failureCount /\
       retryDelay useCountries failureCount <= 4000) /\
    (retry (useHolidays countryIsoCode year) failureCount error = true ->
       retryDelay (useHolidays countryIsoCode year) failureCount
       = 1000 * 2 ^ Z.of_nat failureCount /\
       retryDelay (useHolidays countryIsoCode year) failureCount <= 2000).
Proof.
  intros iso year failureCount error. split; intros Hretry.
  - apply useCountries_retry_ceiling in Hretry.
    destruct failureCount as [|[|[|k]]]; [| | |lia];
      (split; [reflexivity | cbv; discriminate]).
  - apply useHolidays_retry_ceiling in Hretry.
    destruct failureCount as [|[|k]]; [| |lia];
      (split; [reflexivity | cbv; discriminate]).
Qed.

Lemma retry_delay_uncapped_witness :
  retryDelay useCountries 2 = 1000 * 2 ^ Z.of_nat 2 /\
  retryDelay useCountries 2 <= 4000.
Proof.
  apply (proj1 (retry_delay_uncapped "US" None 2
                  (toError (HolidaysApiError "Failed to fetch" None None)))).
  reflexivity.
Defined.

(** X6: a retry predicate that refuses at some failure count refuses at
    every later one, for the same error; and the holidays hook never
    retries where the countries hook would not. *)
Theorem retry_gives_up_for_good :
  forall (countryIsoCode : string) (year : option Z)
         (n m : nat) (error : Error),
    (n <= m)%nat ->
    (retry useCountries n error = false ->
       retry useCountries m error = false) /\
    (retry (useHolidays countryIsoCode year) n error = false ->
       retry (useHolidays countryIsoCode year) m error = false) /\
    (retry useCountries n error = false ->
       retry (useHolidays countryIsoCode year) m error = false).
Proof.
  intros iso year n m error Hle.
  cbn [retry useCountries useHolidays]. unfold RETRY_CONFIG.MAX_RETRIES.
  destruct (String.eqb (errorName error) "ValidationError");
    [repeat split; reflexivity|].
  destruct (Js.includes "404" (errorMessage error)).
  - refine (conj _ (conj _ _)); try reflexivity.
    intros H. apply Nat.ltb_ge in H. apply Nat.ltb_ge. lia.
  - refine (conj _ (conj _ _)); intros H;
      apply Nat.ltb_ge in H; apply Nat.ltb_ge; lia.
Qed.

Lemma retry_gives_up_for_good_witness :
  retry useCountries 5 (toError (HolidaysApiError "Failed to fetch" None None))
  = false.
Proof.
  apply (proj1 (retry_gives_up_for_good "US" None 3 5
                  (toError (HolidaysApiError "Failed to fetch" None None))
                  ltac:(lia))).
  reflexivity.
Defined.

(** ** Query keys and request URLs *)

(** X7: the query keys of the hooks never collide: two holidays keys are
    equal only for the same country code and the same year argument, and
    no holidays key equals the countries key. *)
Theorem query_keys_distinct :
  forall (iso iso' : string) (year year' : option Z),
    (queryKey (useHolidays iso year) = queryKey (useHolidays iso' year')
     <-> iso = iso' /\ year = year') /\
    queryKey (useHolidays iso year) <> queryKey useCountries.
Proof.
  intros iso iso' year year'. split; [split|].
  - apply holidays_key_inj.
  - intros [-> ->]. reflexivity.
  - apply holidays_key_not_countries.
Qed.

Lemma append_length (a b : string) :
  String.length (a ++ b)%string = (String.length a + String.length b)%nat.
Proof.
  induction a as [|c a IH]; simpl; [reflexivity | rewrite IH; reflexivity].
Qed.

Lemma append_cancel_l (p a b : string) :
  (p ++ a)%string = (p ++ b)%string -> a = b.
Proof.
  induction p as [|c p IH]; simpl; [auto|].
  intros [= H]. exact (IH H).
Qed.

(** Two strings that agree after prefixes of the same length have the
    same prefixes and the same remainders. *)
Lemma append_same_length (a b r r' : string) :
  String.length a = String.length b ->
  (a ++ r)%string = (b ++ r')%string -> a = b /\ r = r'.
Proof.
  revert b. induction a as [|c a IH]; intros [|d b]; cbn [String.length];
    try discriminate.
  - intros _ H. split; [reflexivity | exact H].
  - intros [= Hlen]. simpl. intros [= -> H].
    destruct (IH b Hlen H) as [-> ->]. split; reflexivity.
Qed.

(** A number is determined by its decimal rendering. *)
Lemma numberToString_inj (n m : Z) :
  Js.numberToString n = Js.numberToString m -> n = m.
Proof.
  unfold Js.numberToString. intros H.
  assert (Hnorm : forall z, NilZero.int_of_string
                              (NilZero.string_of_int (Z.to_int z))
                            = Some (Z.to_int z)).
  { intros z. apply NilZero.isi; destruct z; cbn [Z.to_int];
      try discriminate; intros [= Hnil];
      exact (Unsigned.to_uint_nonnil _ Hnil). }
  pose proof (Hnorm n) as Hn. rewrite H, Hnorm in Hn.
  injection Hn as Hn.
  rewrite <- (DecimalZ.of_to n), <- (DecimalZ.of_to m), Hn. reflexivity.
Qed.

(** X8: the URL of a holidays request determines what was asked: for one
    country code, two requests have the same URL only when they are for
    the same year (the given one, or the current one when the year is
    omitted or 0); and for one year, only when they are for the same
    country code. *)
Theorem holidaysUrl_injective :
  (forall (thisYear thisYear' : Z) (countryIsoCode : string)
          (year year' : option Z),
      holidaysUrl thisYear countryIsoCode year
      = holidaysUrl thisYear' countryIsoCode year' ->
      Js.orNumber year thisYear = Js.orNumber year' thisYear') /\
  (forall (thisYear : Z) (countryIsoCode countryIsoCode' : string)
          (year : option Z),
      holidaysUrl thisYear countryIsoCode year
      = holidaysUrl thisYear countryIsoCode' year ->
      countryIsoCode = countryIsoCode').
Proof.
  split.
  - intros ty ty' iso year year'. unfold holidaysUrl. cbv zeta.
    set (n := Js.numberToString (Js.orNumber year ty)).
    set (n' := Js.numberToString (Js.orNumber year' ty')).
    intros H.
    do 4 apply append_cancel_l in H.
    assert (Hlen : String.length n = String.length n').
    { apply (f_equal String.length) in H.
      rewrite !append_length in H. cbn [String.length] in H. lia. }
    apply append_same_length in H; [|exact Hlen].
    apply numberToString_inj. exact (proj1 H).
  - intros ty iso iso' year. unfold holidaysUrl. cbv zeta.
    set (rest := ("&languageIsoCode=EN&validFrom=" ++ _)%string).
    intros H.
    do 2 apply append_cancel_l in H.
    assert (Hlen : String.length iso = String.length iso').
    { apply (f_equal String.length) in H.
      rewrite !append_length in H. lia. }
    apply append_same_length in H; [|exact Hlen].
    exact (proj1 H).
Qed.

Lemma holidaysUrl_injective_witness :
  Js.orNumber (Some 2024) 2025 = Js.orNumber (Some 2024) 1999.
Proof.
  apply (proj1 holidaysUrl_injective 2025 1999 "US"%string
           (Some 2024) (Some 2024)).
  reflexivity.
Defined.

(** X9: the query key of the holidays hook and the request it makes can
    part ways. With the year omitted and with the current year given, the
    keys differ but the requests are the same; and under the one key of
    an omitted year, the request changes with the calendar year. *)
Theorem holidays_key_and_request :
  forall (countryIsoCode : string) (thisYear thisYear' : Z),
    queryKey (useHolidays countryIsoCode None)
    <> queryKey (useHolidays countryIsoCode (Some thisYear)) /\
    queryFn (useHolidays countryIsoCode None) thisYear
    = queryFn (useHolidays countryIsoCode (Some thisYear)) thisYear /\
    (thisYear <> thisYear' ->
     url (queryFn (useHolidays countryIsoCode None) thisYear)
     <> url (queryFn (useHolidays countryIsoCode None) thisYear')).
Proof.
  intros iso ty ty'. refine (conj _ (conj _ _)).
  - intros H. apply holidays_key_inj in H. destruct H as [_ H]. discriminate H.
  - cbn [queryFn useHolidays]. f_equal.
    unfold holidaysUrl, Js.orNumber. destruct (ty =? 0) eqn:H0; reflexivity.
  - intros Hne H. cbn [queryFn useHolidays url] in H.
    apply (proj1 holidaysUrl_injective) in H. cbn [Js.orNumber] in H.
    exact (Hne H).
Qed.

Lemma holidays_key_and_request_witness :
  url (queryFn (useHolidays "US" None) 2024)
  <> url (queryFn (useHolidays "US" None) 2025).
Proof.
  apply (proj2 (proj2 (holidays_key_and_request "US" 2024 2025))).
  discriminate.
Defined.

(** ** More on the localization helper *)

(** X10: [getLocalizedText] never invents a text: its result is the
    literal Unknown or the non-empty text of one of the items. *)
Theorem getLocalizedText_from_items :
  forall (items : list LocalizedText) (preferredLanguage : string),
    getLocalizedText items preferredLanguage = "Unknown"%string \/
    exists item,
      In item items /\
      text item <> ""%string /\
      getLocalizedText items preferredLanguage = text item.
Proof.
  intros items pref. rewrite getLocalizedText_unfold.
  assert (Hfb : Spec.fallbackText items = "Unknown"%string \/
                exists item, In item items /\ text item <> ""%string /\
                             Spec.fallbackText items = text item).
  { destruct items as [|first rest]; [left; reflexivity|].
    cbn [Spec.fallbackText].
    destruct (String.eqb (text first) "") eqn:He; [left; reflexivity|].
    right. exists first. split; [left; reflexivity|].
    split; [apply String.eqb_neq; exact He | reflexivity]. }
  destruct (List.find (matchesLanguage pref) items) as [entry|] eqn:Hfind;
    [|exact Hfb].
  destruct (String.eqb (text entry) "") eqn:He; [exact Hfb|].
  right. exists entry. apply List.find_some in Hfind.
  split; [exact (proj1 Hfind)|].
  split; [apply String.eqb_neq; exact He | reflexivity].
Qed.

Lemma lowerChar_idempotent (c : ascii) :
  Js.lowerChar (Js.lowerChar c) = Js.lowerChar c.
Proof.
  destruct c as [[] [] [] [] [] [] [] []]; reflexivity.
Qed.

Lemma toLowerCase_idempotent (s : string) :
  Js.toLowerCase (Js.toLowerCase s) = Js.toLowerCase s.
Proof.
  induction s as [|c s IH]; [reflexivity|].
  cbn [Js.toLowerCase]. rewrite lowerChar_idempotent, IH. reflexivity.
Qed.

Lemma find_ext {A : Type} (p q : A -> bool) (l : list A) :
  (forall x, p x = q x) -> List.find p l = List.find q l.
Proof.
  intros H. induction l as [|x l IH]; [reflexivity|].
  cbn [List.find]. rewrite H, IH. reflexivity.
Qed.

(** X11: the choice of [getLocalizedText] does not depend on letter case:
    two preferred languages that differ only in case give the same
    result, as does the preferred language in lower case, and so does the
    list with every language code put in lower case. *)
Theorem getLocalizedText_case_insensitive :
  forall (items : list LocalizedText) (preferredLanguage : string),
    (forall other,
        Js.toLowerCase other = Js.toLowerCase preferredLanguage ->
        getLocalizedText items other
        = getLocalizedText items preferredLanguage) /\
    getLocalizedText items (Js.toLowerCase preferredLanguage)
    = getLocalizedText items preferredLanguage /\
    getLocalizedText
      (map (fun item => {| language := Js.toLowerCase (language item);
                           text := text item |}) items)
      preferredLanguage
    = getLocalizedText items preferredLanguage.
Proof.
  intros items pref.
  assert (Hother : forall other,
             Js.toLowerCase other = Js.toLowerCase pref ->
             getLocalizedText items other = getLocalizedText items pref).
  { intros other Hcase. unfold getLocalizedText. cbv zeta.
    rewrite (find_ext (matchesLanguage other) (matchesLanguage pref)).
    - reflexivity.
    - intros x. unfold matchesLanguage. rewrite Hcase. reflexivity. }
  refine (conj Hother (conj _ _)).
  - apply Hother. apply toLowerCase_idempotent.
  - rewrite !getLocalizedText_unfold.
    assert (Hfind : forall l : list LocalizedText,
               List.find (matchesLanguage pref)
                 (map (fun item => {| language := Js.toLowerCase (language item);
                                      text := text item |}) l)
               = option_map
                   (fun item => {| language := Js.toLowerCase (language item);
                                   text := text item |})
                   (List.find (matchesLanguage pref) l)).
    { induction l as [|x l IH]; [reflexivity|].
      cbn [map List.find]. unfold matchesLanguage at 1 3.
      cbn [language]. rewrite toLowerCase_idempotent.
      destruct (String.eqb (Js.toLowerCase (language x)) (Js.toLowerCase pref));
        [reflexivity | exact IH]. }
    rewrite Hfind.
    assert (Hfb : Spec.fallbackText
                    (map (fun item => {| language := Js.toLowerCase (language item);
                                         text := text item |}) items)
                  = Spec.fallbackText items)
      by (destruct items; reflexivity).
    rewrite Hfb.
    destruct (List.find (matchesLanguage pref) items); reflexivity.
Qed.

Lemma getLocalizedText_case_insensitive_witness :
  getLocalizedText [ {| language := "en"; text := "Christmas" |} ] "EN"
  = getLocalizedText [ {| language := "en"; text := "Christmas" |} ] "en".
Proof.
  apply (proj1 (getLocalizedText_case_insensitive
                  [ {| language := "en"; text := "Christmas" |} ] "en")
               "EN"%string).
  reflexivity.
Defined.

(** ** What the components show *)

Lemma orStr_not_empty (a : option string) (lit : string) :
  lit <> ""%string -> Js.orStr a lit <> ""%string.
Proof.
  intros Hlit. unfold Js.orStr. destruct a as [s|]; [|exact Hlit].
  destruct (String.eqb s "") eqn:He; [exact Hlit|].
  apply String.eqb_neq. exact He.
Qed.

Lemma getLocalizedTextDefault_not_empty (items : list LocalizedText) :
  getLocalizedTextDefault items <> ""%string.
Proof.
  unfold getLocalizedTextDefault. rewrite getLocalizedText_unfold.
  destruct (List.find (matchesLanguage "en") items) as [entry|];
    [|apply fallbackText_not_empty].
  destruct (String.eqb (text entry) "") eqn:He;
    [apply fallbackText_not_empty | apply String.eqb_neq; exact He].
Qed.

Lemma HolidayList_views_null (countries holidays : QueryResult)
    (countryIsoCode : string) (currentYear : Z) :
  HolidayList countries holidays countryIsoCode currentYear = Null
  <-> countryIsoCode = ""%string.
Proof.
  unfold HolidayList.
  destruct (String.eqb_spec countryIsoCode ""); [tauto|].
  split; [|tauto]. destruct (error holidays); discriminate.
Qed.

(** X12: which view [HolidayList] shows. Nothing exactly for the empty
    country code; otherwise the error view exactly when the hook reports
    an error, whatever it reports besides, and its text is never empty
    (it is what [ErrorDisplay] shows for that error); otherwise the
    skeleton exactly while loading; and the cards exactly for a non-empty
    array of holidays, with those holidays. *)
Theorem HolidayList_views :
  forall (countries holidays : QueryResult) (countryIsoCode : string)
         (currentYear : Z),
    let view := HolidayList countries holidays countryIsoCode currentYear in
    (view = Null <-> countryIsoCode = ""%string) /\
    ((exists title message, view = ErrorDisplay title message) <->
     countryIsoCode <> ""%string /\ error holidays <> None) /\
    (forall title message,
        view = ErrorDisplay title message ->
        message <> ""%string /\
        exists err,
          error holidays = Some err /\
          message = Views.cardText (Views.ErrorDisplay (toError err) true (Some title))) /\
    ((exists heading, view = Card heading HolidayListSkeleton) <->
     countryIsoCode <> ""%string /\ error holidays = None /\
     isLoading holidays = true) /\
    (forall hs,
        (exists heading, view = Card heading (HolidayCards hs)) <->
        countryIsoCode <> ""%string /\ error holidays = None /\
        isLoading holidays = false /\
        data holidays = Some (JArray hs) /\ hs <> []).
Proof.
  intros countries holidays iso year. cbv zeta. unfold HolidayList.
  set (countryName := match List.find _ _ with Some c => _ | None => iso end).
  destruct (String.eqb iso "") eqn:Hiso.
  - apply String.eqb_eq in Hiso.
    refine (conj _ (conj _ (conj _ (conj _ _)))).
    + tauto.
    + split; [intros (t & m & H); discriminate H | tauto].
    + intros t m H. discriminate H.
    + split; [intros (h & H); discriminate H | tauto].
    + intros hs. split; [intros (h & H); discriminate H | tauto].
  - apply String.eqb_neq in Hiso.
    destruct (error holidays) as [err|] eqn:Herr.
    + refine (conj _ (conj _ (conj _ (conj _ _)))).
      * split; [discriminate | tauto].
      * split; [intros _; split; [exact Hiso | discriminate] | eauto].
      * intros t m [= <- <-]. split.
        -- apply (orStr_not_empty (Some (errorMessage (toError err)))
                    "An unexpected error occurred. Please try again.").
           discriminate.
        -- exists err. split; reflexivity.
      * split; [intros (h & H); discriminate H | intros (_ & H & _); discriminate H].
      * intros hs.
        split; [intros (h & H); discriminate H | intros (_ & H & _); discriminate H].
    + refine (conj _ (conj _ (conj _ (conj _ _)))).
      * split; [discriminate | tauto].
      * split; [intros (t & m & H); discriminate H | intros [_ H]; congruence].
      * intros t m H. discriminate H.
      * destruct (isLoading holidays).
        -- split; [tauto | eauto].
        -- split; [intros (h & H) | intros (_ & _ & H); discriminate H].
           destruct (data holidays) as [[| | | |[|h0 hs0]|]|]; discriminate H.
      * intros hs. destruct (isLoading holidays).
        -- split; [intros (h & H); discriminate H
                  | intros (_ & _ & H & _); discriminate H].
        -- destruct (data holidays) as [[| | | |[|h0 hs0]|]|];
             (split;
              [ intros (h & H); try discriminate H
              | intros (_ & _ & _ & H & Hne); try discriminate H ]).
           ++ injection H as <-. exfalso. apply Hne. reflexivity.
           ++ injection H as _ <-.
              split; [exact Hiso|]. split; [reflexivity|].
              split; [reflexivity|]. split; [reflexivity | discriminate].
           ++ injection H as <-. eexists. reflexivity.
Qed.

Lemma HolidayList_views_witness :
  exists err,
    Some (HolidaysApiError "" None None) = Some err /\
    "An unexpected error occurred. Please try again."%string
    = Views.cardText
        (Views.ErrorDisplay (toError err) true
           (Some "Failed to load holidays for US"%string)).
Proof.
  apply (proj1 (proj2 (proj2
           (HolidayList_views
              {| data := None; isLoading := false; error := None |}
              {| data := None; isLoading := false;
                 error := Some (HolidaysApiError "" None None) |}
              "US"%string 2025)))
           "Failed to load holidays for US"%string
           "An unexpected error occurred. Please try again."%string).
  reflexivity.
Defined.

(** X13: the country name [HolidayList] puts into its title and heading
    is never empty when a country code is selected, and it is the code
    itself when the countries data has no country with that code (or is
    not there yet). *)
Theorem HolidayList_country_name :
  forall (countries holidays : QueryResult) (countryIsoCode : string)
         (currentYear : Z),
    countryIsoCode <> ""%string ->
    exists countryName,
      countryName <> ""%string /\
      match error holidays with
      | Some _ =>
          exists message,
            HolidayList countries holidays countryIsoCode currentYear
            = ErrorDisplay ("Failed to load holidays for " ++ countryName)%string
                message
      | None =>
          exists body,
            HolidayList countries holidays countryIsoCode currentYear
            = Card ("Public Holidays in " ++ countryName ++ " ("
                      ++ Js.numberToString currentYear ++ ")")%string body
      end /\
      ((forall c, In c (asItems (data countries)) ->
                  asString (getField "isoCode" c) <> countryIsoCode) ->
       countryName = countryIsoCode).
Proof.
  intros countries holidays iso year Hiso. unfold HolidayList.
  apply String.eqb_neq in Hiso. rewrite Hiso. apply String.eqb_neq in Hiso.
  set (p := fun c : Zod.json => String.eqb (asString (getField "isoCode" c)) iso).
  destruct (List.find p (asItems (data countries))) as [c|] eqn:Hfind.
  - eexists. split; [apply getLocalizedTextDefault_not_empty|]. split.
    + destruct (error holidays); eexists; reflexivity.
    + intros Hnone. apply List.find_some in Hfind. destruct Hfind as [Hin Hp].
      exfalso. apply (Hnone c Hin). apply String.eqb_eq. exact Hp.
  - exists iso. split; [exact Hiso|]. split.
    + destruct (error holidays); eexists; reflexivity.
    + reflexivity.
Qed.

Lemma HolidayList_country_name_witness :
  exists countryName,
    countryName <> ""%string /\
    (exists body,
       HolidayList {| data := None; isLoading := true; error := None |}
         {| data := None; isLoading := true; error := None |} "XY" 2025
       = Card ("Public Holidays in " ++ countryName ++ " ("
                 ++ Js.numberToString 2025 ++ ")")%string body) /\
    ((forall c, In c [] -> asString (getField "isoCode" c) <> "XY"%string) ->
     countryName = "XY"%string).
Proof.
  apply (HolidayList_country_name
           {| data := None; isLoading := true; error := None |}
           {| data := None; isLoading := true; error := None |}
           "XY"%string 2025).
  discriminate.
Defined.

(** X14: what [CountrySelector] shows. An error of the countries query
    wins over everything else and is shown under the title Failed to
    load countries, with a non-empty text and the Try Again button.
    Otherwise, once loaded, the select element carries the selected code
    as its value; its first option is the placeholder with the empty
    value; the options after it are the countries in the order received,
    each with the country's code as value and a label made of a non-empty
    name followed by the code in parentheses. *)
Theorem CountrySelector_views :
  forall (countries : QueryResult) (selected : string),
    (forall err,
        error countries = Some err ->
        exists card,
          Views.CountrySelector countries selected = Views.SelectorError card /\
          Views.cardTitle card = "Failed to load countries"%string /\
          Views.cardText card <> ""%string /\
          Views.tryAgain card = true) /\
    (error countries = None ->
     isLoading countries = false ->
     exists options,
       Views.CountrySelector countries selected
       = Views.SelectorCard
           (Views.Select selected
              ((""%string, "-- Select a Country --"%string) :: options)) /\
       map fst options
       = map isoCode (map asCountry (asItems (data countries))) /\
       forall value label,
         In (value, label) options ->
         exists countryName,
           countryName <> ""%string /\
           label = (countryName ++ " (" ++ value ++ ")")%string).
Proof.
  intros countries selected. unfold Views.CountrySelector. split.
  - intros err ->. eexists. split; [reflexivity|].
    split; [reflexivity|]. split; [|reflexivity].
    cbn [Views.cardText Views.ErrorDisplay].
    apply orStr_not_empty. discriminate.
  - intros -> ->. eexists. split; [reflexivity|]. split.
    + rewrite map_map. reflexivity.
    + intros value label Hin. apply in_map_iff in Hin.
      destruct Hin as (country & [= <- <-] & _).
      exists (Views.getCountryName country).
      split; [apply getLocalizedTextDefault_not_empty | reflexivity].
Qed.

Lemma CountrySelector_views_witness :
  exists options,
    Views.CountrySelector
      {| data := Some (JArray [countryJson
                                 {| isoCode := "US";
                                    name := [{| language := "en";
                                                text := "United States" |}];
                                    officialLanguages := ["en"%string] |}]);
         isLoading := false; error := None |} "US"
    = Views.SelectorCard
        (Views.Select "US"
           ((""%string, "-- Select a Country --"%string) :: options)) /\
    map fst options = ["US"%string].
Proof.
  destruct (proj2 (CountrySelector_views
              {| data := Some (JArray [countryJson
                                         {| isoCode := "US";
                                            name := [{| language := "en";
                                                        text := "United States" |}];
                                            officialLanguages := ["en"%string] |}]);
                 isLoading := false; error := None |} "US"%string)
              eq_refl eq_refl) as (options & Hview & Hvalues & _).
  exists options. split; [exact Hview | exact Hvalues].
Defined.

(** X15: what [HolidayCard] shows. The heading is never empty. The
    comment paragraph is there exactly when the holiday has a comment
    array, and its text is never empty: for an empty comment array it
    reads Unknown. The end date is shown exactly when it differs from the
    start date as a string. *)
Theorem HolidayCard_views :
  forall (formatHolidayDate : string -> string) (holiday : HolidayData.Holiday),
    let card := Views.HolidayCard formatHolidayDate holiday in
    Views.cardHeading card <> ""%string /\
    (Views.commentText card = None <-> HolidayData.comment holiday = None) /\
    (forall c, Views.commentText card = Some c -> c <> ""%string) /\
    (HolidayData.comment holiday = Some [] ->
     Views.commentText card = Some "Unknown"%string) /\
    (Views.endText card = None <->
     HolidayData.startDate holiday = HolidayData.endDate holiday).
Proof.
  intros fmt holiday. cbv zeta.
  unfold Views.HolidayCard.
  cbn [Views.cardHeading Views.commentText Views.endText].
  refine (conj _ (conj _ (conj _ (conj _ _)))).
  - apply getLocalizedTextDefault_not_empty.
  - destruct (HolidayData.comment holiday) as [c|]; [|tauto].
    unfold Js.truthy.
    pose proof (getLocalizedTextDefault_not_empty c) as Hne.
    apply String.eqb_neq in Hne. rewrite Hne. cbn [negb].
    split; discriminate.
  - intros c0. destruct (HolidayData.comment holiday) as [c|];
      [|discriminate].
    unfold Js.truthy.
    pose proof (getLocalizedTextDefault_not_empty c) as Hne.
    pose proof Hne as Hne'. apply String.eqb_neq in Hne'. rewrite Hne'.
    cbn [negb]. intros [= <-]. exact Hne.
  - intros ->. reflexivity.
  - destruct (String.eqb (HolidayData.startDate holiday)
                         (HolidayData.endDate holiday)) eqn:He.
    + apply String.eqb_eq in He. tauto.
    + apply String.eqb_neq in He. split; [discriminate | tauto].
Qed.

Lemma HolidayCard_views_witness :
  Views.commentText
    (Views.HolidayCard (fun d => d)
       {| HolidayData.id := "1"; HolidayData.startDate := "2024-01-01";
          HolidayData.endDate := "2024-01-01"; HolidayData.type := "Public";
          HolidayData.nationwide := true; HolidayData.name := [];
          HolidayData.comment := Some [] |})
  = Some "Unknown"%string.
Proof.
  apply (proj1 (proj2 (proj2 (proj2
           (HolidayCard_views (fun d => d)
              {| HolidayData.id := "1"; HolidayData.startDate := "2024-01-01";
                 HolidayData.endDate := "2024-01-01"; HolidayData.type := "Public";
                 HolidayData.nationwide := true; HolidayData.name := [];
                 HolidayData.comment := Some [] |}))))).
  reflexivity.
Defined.

Lemma fold_left_last {A S : Type} (g : A -> S) (l : list A) (s : S) :
  fold_left (fun _ x => g x) l s
  = match last l with
    | Some x => g x
    | None => s
    end.
Proof.
  revert s. induction l as [|x l IH]; intros s; [reflexivity|].
  cbn [fold_left]. rewrite IH. destruct l as [|y l]; [reflexivity|].
  change (last (x :: y :: l)) with (last (y :: l)).
  destruct (last (y :: l)) eqn:Hl; [reflexivity|].
  apply last_None in Hl. discriminate Hl.
Qed.

(** X16: [ErrorBoundary] never recovers by itself: it shows its children
    exactly as long as no error was caught; after that it holds the
    error caught last and shows the fallback or its own card, whatever
    is caught later. *)
Theorem ErrorBoundary_absorbs :
  forall (A : Type) (errors : list Error) (fallback : option A) (children : A),
    (Views.hasError (Views.afterErrors errors) = false <-> errors = []) /\
    Views.caught (Views.afterErrors errors) = last errors /\
    (Views.render (Views.afterErrors errors) fallback children
     = Views.Children children <-> errors = []) /\
    (forall later,
        errors <> [] ->
        Views.render (Views.afterErrors (errors ++ later)) fallback children
        <> Views.Children children).
Proof.
  intros A errors fallback children.
  assert (Hstate : forall l,
             Views.afterErrors l
             = match last l with
               | Some e => Views.getDerivedStateFromError e
               | None => Views.initialState
               end)
    by (intros l; apply (fold_left_last Views.getDerivedStateFromError)).
  assert (Hlast : forall l : list Error, last l = None <-> l = []).
  { intros l. split; [|intros ->; reflexivity].
    destruct l as [|x l]; [reflexivity|]. intros H.
    apply last_None in H. discriminate H. }
  assert (Hrender : forall l,
             Views.render (Views.afterErrors l) fallback children
             = Views.Children children <-> l = []).
  { intros l. rewrite Hstate. unfold Views.render.
    destruct (last l) as [e|] eqn:Hl; cbn [Views.hasError
      Views.getDerivedStateFromError Views.initialState].
    - split.
      + destruct fallback; discriminate.
      + intros ->. discriminate Hl.
    - split; [intros _; apply Hlast; exact Hl | reflexivity]. }
  refine (conj _ (conj _ (conj (Hrender errors) _))).
  - rewrite Hstate. destruct (last errors) as [e|] eqn:Hl;
      cbn [Views.hasError Views.getDerivedStateFromError Views.initialState].
    + split; [discriminate | intros ->; discriminate Hl].
    + split; [intros _; apply Hlast; exact Hl | reflexivity].
  - rewrite Hstate. destruct (last errors); reflexivity.
  - intros later Hne H. apply Hrender in H.
    destruct errors; [apply Hne; reflexivity | discriminate H].
Qed.

Lemma ErrorBoundary_absorbs_witness :
  Views.render
    (Views.afterErrors
       ([{| errorName := "TypeError"; errorMessage := "x is undefined" |}] ++ []))
    None tt
  <> Views.Children tt.
Proof.
  apply (proj2 (proj2 (proj2
           (ErrorBoundary_absorbs unit
              [{| errorName := "TypeError"; errorMessage := "x is undefined" |}]
              None tt)))).
  discriminate.
Defined.

(** X17: [App] keeps the code the selector reported last, starting from
    the empty code; [HolidayList] shows nothing, and the holidays query
    is disabled, exactly when nothing was selected yet or the placeholder
    was selected last. *)
Theorem App_selected_country :
  forall (changes : list string) (countries holidays : QueryResult)
         (currentYear : Z),
    Views.selectedCountry changes = default ""%string (last changes) /\
    (HolidayList countries holidays (Views.selectedCountry changes) currentYear
     = Null
     <-> last changes = None \/ last changes = Some ""%string) /\
    (enabled (useHolidays (Views.selectedCountry changes) None) = false
     <-> last changes = None \/ last changes = Some ""%string).
Proof.
  intros changes countries holidays year.
  assert (Hsel : Views.selectedCountry changes = default ""%string (last changes)).
  { pose proof (fold_left_last (fun code : string => code) changes ""%string)
      as Hfold.
    unfold Views.selectedCountry, Views.handleCountryChange.
    etransitivity; [exact Hfold|].
    destruct (last changes); reflexivity. }
  assert (Hempty : Views.selectedCountry changes = ""%string
                   <-> last changes = None \/ last changes = Some ""%string).
  { rewrite Hsel. destruct (last changes) as [code|]; simpl.
    - split; [intros ->; right; reflexivity | intros [H|[= ->]];
                                               [discriminate H | reflexivity]].
    - split; [left; reflexivity | reflexivity]. }
  refine (conj Hsel (conj _ _)).
  - rewrite <- Hempty.
    exact (HolidayList_views_null countries holidays _ year).
  - rewrite <- Hempty. cbn [enabled useHolidays].
    destruct (String.eqb_spec (Views.selectedCountry changes) "");
      cbn [negb]; split; congruence.
Qed.

(** ** The holidays schema *)

Section HolidayValidator.

Lemma parse_boolean_inv (v w : Zod.json) :
  parse ZBoolean v = Ok w -> w = JBool (HolidayData.asBool (Some v)).
Proof.
  destruct v; cbn [parse]; try discriminate. intros [= <-]. reflexivity.
Qed.

(** An optional key of an accepted object is either absent, and then
    absent from the output, or present and accepted by the inner
    schema. *)
Lemma optional_field_inv (inner : schema) (found : option Zod.json)
    (o : option Zod.json) :
  match found with
  | Some x => defined (parse (ZOptional inner) x)
  | None => missing (ZOptional inner)
  end = Ok o ->
  (found = None /\ o = None) \/
  exists x y, found = Some x /\ parse inner x = Ok y /\ o = Some y.
Proof.
  destruct found as [x|].
  - change (parse (ZOptional inner) x) with (parse inner x).
    destruct (parse inner x) as [y|e] eqn:Hx; cbn [defined]; [|discriminate].
    intros [= <-]. right. eauto.
  - cbn [missing]. intros [= <-]. left. split; reflexivity.
Qed.

(** What the holiday schema accepts, it returns as the JSON value of the
    typed holiday read from the input. *)
Lemma parse_holiday_inv (v w : Zod.json) :
  parse HolidaySchema v = Ok w ->
  w = HolidayData.holidayJson (HolidayData.asHoliday v).
Proof.
  destruct v as [| | | | |fields]; try (cbn [parse HolidaySchema]; discriminate).
  unfold HolidaySchema. rewrite parse_object. cbn [map].
  destruct (collectFields _) as [ys|e] eqn:Hfields; [|discriminate].
  intros [= <-].
  apply collectFields_ok_inv in Hfields.
  destruct Hfields as (o1 & ys1 & H1 & Hfields & ->).
  apply collectFields_ok_inv in Hfields.
  destruct Hfields as (o2 & ys2 & H2 & Hfields & ->).
  apply collectFields_ok_inv in Hfields.
  destruct Hfields as (o3 & ys3 & H3 & Hfields & ->).
  apply collectFields_ok_inv in Hfields.
  destruct Hfields as (o4 & ys4 & H4 & Hfields & ->).
  apply collectFields_ok_inv in Hfields.
  destruct Hfields as (o5 & ys5 & H5 & Hfields & ->).
  apply collectFields_ok_inv in Hfields.
  destruct Hfields as (o6 & ys6 & H6 & Hfields & ->).
  apply collectFields_ok_inv in Hfields.
  destruct Hfields as (o7 & ys7 & H7 & Hfields & ->).
  cbn [collectFields] in Hfields. injection Hfields as <-.
  apply required_field_inv in H1; [|discriminate].
  apply required_field_inv in H2; [|discriminate].
  apply required_field_inv in H3; [|discriminate].
  apply required_field_inv in H4; [|discriminate].
  apply required_field_inv in H5; [|discriminate].
  apply required_field_inv in H6; [|discriminate].
  apply optional_field_inv in H7.
  destruct H1 as (x1 & y1 & Hl1 & Hp1 & ->).
  destruct H2 as (x2 & y2 & Hl2 & Hp2 & ->).
  destruct H3 as (x3 & y3 & Hl3 & Hp3 & ->).
  destruct H4 as (x4 & y4 & Hl4 & Hp4 & ->).
  destruct H5 as (x5 & y5 & Hl5 & Hp5 & ->).
  destruct H6 as (x6 & y6 & Hl6 & Hp6 & ->).
  apply parse_string_inv in Hp1, Hp2, Hp3, Hp4.
  destruct Hp1 as [_ ->], Hp2 as [_ ->], Hp3 as [_ ->], Hp4 as [_ ->].
  apply parse_boolean_inv in Hp5. subst y5.
  apply parse_localizedTexts_inv in Hp6. subst y6.
  unfold HolidayData.holidayJson, HolidayData.asHoliday.
  cbn [HolidayData.id HolidayData.startDate HolidayData.endDate
       HolidayData.type HolidayData.nationwide HolidayData.name
       HolidayData.comment getField].
  rewrite Hl1, Hl2, Hl3, Hl4, Hl5, Hl6.
  destruct H7 as [[Hl7 ->]|(x7 & y7 & Hl7 & Hp7 & ->)]; rewrite Hl7.
  - reflexivity.
  - apply parse_localizedTexts_inv in Hp7. subst y7. reflexivity.
Qed.

Lemma parse_holiday (h : HolidayData.Holiday) :
  parse HolidaySchema (HolidayData.holidayJson h)
  = Ok (HolidayData.holidayJson h).
Proof.
  unfold HolidaySchema, HolidayData.holidayJson.
  destruct (HolidayData.comment h) as [c|];
    cbn [app parse map lookupField String.eqb Ascii.eqb Bool.eqb defined
         missing collectFields];
    fold LocalizedTextSchema;
    rewrite ?parseItems_localizedTexts; reflexivity.
Qed.

Lemma parseItems_holidays :
  forall (hs : list HolidayData.Holiday) (i : nat),
    parseItems (parse HolidaySchema) i (map HolidayData.holidayJson hs)
    = Ok (map HolidayData.holidayJson hs).
Proof.
  induction hs as [|h hs IH]; intros i; [reflexivity|].
  cbn [map parseItems]. rewrite parse_holiday, IH. reflexivity.
Qed.

Lemma asLocalizedTexts_roundtrip (l : list LocalizedText) :
  map asLocalizedText (map localizedTextJson l) = l.
Proof.
  rewrite map_map. induction l as [|[lang t] l IH]; [reflexivity|].
  cbn [map]. rewrite IH. reflexivity.
Qed.

Lemma asHoliday_holidayJson (h : HolidayData.Holiday) :
  HolidayData.asHoliday (HolidayData.holidayJson h) = h.
Proof.
  destruct h as [i s e t n names [c|]];
    unfold HolidayData.asHoliday, HolidayData.holidayJson;
    cbn [HolidayData.id HolidayData.startDate HolidayData.endDate
         HolidayData.type HolidayData.nationwide HolidayData.name
         HolidayData.comment app getField lookupField String.eqb Ascii.eqb
         Bool.eqb asString asItems HolidayData.asBool];
    rewrite ?asLocalizedTexts_roundtrip; reflexivity.
Qed.

Lemma parse_holidays_inv (items : list Zod.json) (w : Zod.json) :
  parse HolidaysResponseSchema (JArray items) = Ok w ->
  w = JArray (map HolidayData.holidayJson (map HolidayData.asHoliday items)).
Proof.
  unfold HolidaysResponseSchema. rewrite parse_array.
  destruct (parseItems (parse HolidaySchema) 0 items) as [ys|e] eqn:Hitems;
    [|discriminate].
  intros [= <-]. f_equal. rewrite map_map.
  apply (parseItems_ok_map (parse HolidaySchema)) with (i := 0%nat);
    [|exact Hitems].
  intros x y Hxy. apply parse_holiday_inv. exact Hxy.
Qed.

End HolidayValidator.

(** A key whose value its schema rejects makes the whole object fail. *)
Lemma parse_object_bad_key :
  forall (shape : list (string * schema)) (k : string) (sk : schema)
         (v x : Zod.json) (e : ZodError),
    In (k, sk) shape ->
    getField k v = Some x ->
    parse sk x = Err e ->
    exists e', parse (ZObject shape) v = Err e'.
Proof.
  intros shape k sk v x e Hin Hget Hx.
  destruct v as [| b | n | s | items | fields]; try discriminate Hget.
  cbn [getField] in Hget. rewrite parse_object.
  set (rs := map _ shape).
  assert (Hrs : In (k, Err e) rs).
  { subst rs. apply in_map_iff. exists (k, sk). split; [|exact Hin].
    rewrite Hget, Hx. reflexivity. }
  destruct (collectFields_failing rs k e Hrs) as [e' ->]. eauto.
Qed.

(** X18: an object schema accepts objects only, and only those in which
    every key of its shape passes: a value that is not an object, an
    object without a required key, and an object with a key whose value
    that key's schema rejects are all rejected. *)
Theorem object_schema_rejects :
  forall (shape : list (string * schema)) (k : string) (sk : schema)
         (v : Zod.json),
    In (k, sk) shape ->
    ((forall fields, v <> JObject fields) ->
     exists e, parse (ZObject shape) v = Err e) /\
    ((forall inner, sk <> ZOptional inner) ->
     getField k v = None ->
     exists e, parse (ZObject shape) v = Err e) /\
    (forall x e,
        getField k v = Some x -> parse sk x = Err e ->
        exists e', parse (ZObject shape) v = Err e').
Proof.
  intros shape k sk v Hin. refine (conj _ (conj _ _)).
  - intros Hnot. destruct v; try (eexists; reflexivity).
    exfalso. exact (Hnot _ eq_refl).
  - intros Hreq Hget. exact (parse_object_missing_key shape k sk v Hin Hreq Hget).
  - intros x e Hget Hx. exact (parse_object_bad_key shape k sk v x e Hin Hget Hx).
Qed.

Lemma object_schema_rejects_witness :
  exists e',
    parse HolidaySchema
      (JObject [("id", JNumber 7)]%string) = Err e'.
Proof.
  unfold HolidaySchema.
  match goal with
  | |- exists e', parse (ZObject ?shape) _ = _ =>
      apply (proj2 (proj2 (object_schema_rejects shape "id"%string ZString
                             (JObject [("id", JNumber 7)]%string)
                             (or_introl eq_refl)))
                   (JNumber 7) (invalidType "string"))
  end; reflexivity.
Defined.

(** X19: the holidays schema and the typed holidays. The JSON of any list
    of holidays is accepted and returned as it is, whatever its strings
    hold: no date format and no order of the two dates is checked. What
    the schema accepts it returns as the JSON of the typed holidays read
    from the input. Reading back the JSON of a holiday, or of a country,
    gives the holiday, or the country. *)
Theorem holidays_validation :
  (forall hs : list HolidayData.Holiday,
      parse HolidaysResponseSchema (JArray (map HolidayData.holidayJson hs))
      = Ok (JArray (map HolidayData.holidayJson hs))) /\
  (forall (items : list Zod.json) (w : Zod.json),
      parse HolidaysResponseSchema (JArray items) = Ok w ->
      w = JArray (map HolidayData.holidayJson
                    (map HolidayData.asHoliday items))) /\
  (forall h : HolidayData.Holiday,
      HolidayData.asHoliday (HolidayData.holidayJson h) = h) /\
  (forall c : Country, asCountry (countryJson c) = c).
Proof.
  refine (conj _ (conj _ (conj _ _))).
  - intros hs. unfold HolidaysResponseSchema.
    rewrite parse_array, parseItems_holidays. reflexivity.
  - exact parse_holidays_inv.
  - exact asHoliday_holidayJson.
  - exact asCountry_countryJson.
Qed.

Lemma fetchWithValidation_inr :
  forall (fetch : Transport) (url : string) (s : schema) (v : Zod.json),
    fetchWithValidation fetch url s = inr v ->
    exists data, parse s data = Ok v.
Proof.
  intros fetch url s v. unfold fetchWithValidation, tryBlock.
  destruct (fetch url) as [response|thrown]; [|discriminate].
  destruct (negb (ok response)); [discriminate|].
  destruct (json response) as [data|thrown]; [|discriminate].
  destruct (parse s data) as [w|e] eqn:Hparse; [|discriminate].
  intros [= <-]. eauto.
Qed.

Lemma parse_array_shape (element : schema) (data v : Zod.json) :
  parse (ZArray element) data = Ok v -> exists items, data = JArray items.
Proof.
  destruct data; try (cbn [parse]; discriminate). eauto.
Qed.

(** X20: what the two fetch functions resolve to is typed data: the
    JSON of a list of countries, or of a list of holidays, which the
    response schema accepts again and returns unchanged. *)
Theorem fetch_results_are_typed :
  forall (fetch : Transport) (thisYear : Z) (countryIsoCode : string)
         (year : option Z),
    (forall v,
        fetchCountries fetch = inr v ->
        exists cs : list Country,
          v = JArray (map countryJson cs) /\
          parse CountriesResponseSchema v = Ok v) /\
    (forall v,
        fetchHolidays fetch thisYear countryIsoCode year = inr v ->
        exists hs : list HolidayData.Holiday,
          v = JArray (map HolidayData.holidayJson hs) /\
          parse HolidaysResponseSchema v = Ok v).
Proof.
  intros fetch ty iso year. split; intros v Hv.
  - apply fetchWithValidation_inr in Hv. destruct Hv as [data Hparse].
    destruct (parse_array_shape _ _ _ Hparse) as [items ->].
    assert (Hshape : exists out, v = JArray out).
    { unfold CountriesResponseSchema in Hparse. rewrite parse_array in Hparse.
      destruct (parseItems _ _ _); [|discriminate].
      injection Hparse as <-. eauto. }
    destruct Hshape as [out ->].
    apply parse_countries_inv in Hparse. subst out.
    exists (map asCountry items). split; [reflexivity|].
    unfold CountriesResponseSchema.
    rewrite parse_array, parseItems_countries. reflexivity.
  - apply fetchWithValidation_inr in Hv. destruct Hv as [data Hparse].
    destruct (parse_array_shape _ _ _ Hparse) as [items ->].
    apply parse_holidays_inv in Hparse. subst v.
    exists (map HolidayData.asHoliday items). split; [reflexivity|].
    unfold HolidaysResponseSchema.
    rewrite parse_array, parseItems_holidays. reflexivity.
Qed.

Lemma lookupField_other (k k' : string) (x : Zod.json)
    (rest : list (string * Zod.json)) :
  k' <> k -> lookupField k ((k', x) :: rest) = lookupField k rest.
Proof.
  intros Hne. cbn [lookupField]. apply String.eqb_neq in Hne.
  rewrite Hne. reflexivity.
Qed.

(** X21: validated data has no key outside the schema: a country the
    schema accepted has no field besides [isoCode], [name] and
    [officialLanguages], a holiday none besides the seven of its schema;
    whatever else the input object carried is dropped. *)
Theorem unknown_keys_dropped :
  forall (v w : Zod.json) (k : string),
    (parse CountrySchema v = Ok w ->
     ~ In k ["isoCode"; "name"; "officialLanguages"]%string ->
     getField k w = None) /\
    (parse HolidaySchema v = Ok w ->
     ~ In k ["id"; "startDate"; "endDate"; "type"; "nationwide"; "name";
             "comment"]%string ->
     getField k w = None).
Proof.
  intros v w k. split; intros Hparse Hk.
  - apply parse_country_inv in Hparse. subst w.
    unfold countryJson. cbn [getField].
    rewrite !lookupField_other; [reflexivity| | |];
      intros <-; apply Hk; cbn [In]; tauto.
  - apply parse_holiday_inv in Hparse. subst w.
    unfold HolidayData.holidayJson. cbn [getField app].
    rewrite !lookupField_other;
      try (intros <-; apply Hk; cbn [In]; tauto).
    destruct (HolidayData.comment (HolidayData.asHoliday v)); [|reflexivity].
    rewrite lookupField_other; [reflexivity|].
    intros <-; apply Hk; cbn [In]; tauto.
Qed.

Lemma unknown_keys_dropped_witness :
  getField "population"
    (countryJson {| isoCode := "US"; name := []; officialLanguages := [] |})
  = None.
Proof.
  apply (proj1 (unknown_keys_dropped
                  (JObject [("isoCode", JString "US"); ("name", JArray []);
                            ("officialLanguages", JArray []);
                            ("population", JNumber 331)]%string)
                  (countryJson {| isoCode := "US"; name := [];
                                  officialLanguages := [] |})
                  "population"%string)).
  - reflexivity.
  - cbn [In]. intros [H|[H|[H|[]]]]; discriminate H.
Defined.

(** X22: the [comment] key of a holiday is optional but not nullable: a
    holiday without the key is accepted if the rest is, and the result
    has no comment; when the key is there, its value must be an array,
    so a holiday whose comment is [null] is rejected. *)
Theorem holiday_comment_optional :
  forall v : Zod.json,
    (forall w,
        parse HolidaySchema v = Ok w ->
        match getField "comment" v with
        | None => getField "comment" w = None
        | Some c =>
            exists items out,
              c = JArray items /\
              getField "comment" w = Some (JArray out) /\
              length out = length items
        end) /\
    (getField "comment" v = Some JNull ->
     exists e, parse HolidaySchema v = Err e).
Proof.
  intros v.
  assert (Hbad : forall c e,
             getField "comment" v = Some c ->
             parse (ZArray LocalizedTextSchema) c = Err e ->
             exists e', parse HolidaySchema v = Err e').
  { intros c e Hget Hc. unfold HolidaySchema.
    match goal with
    | |- exists e', parse (ZObject ?shape) _ = _ =>
        apply (parse_object_bad_key shape "comment"
                 (ZOptional (ZArray LocalizedTextSchema)) v c e)
    end.
    - cbn [In]. do 6 right. left. reflexivity.
    - exact Hget.
    - exact Hc. }
  split.
  - intros w Hparse.
    destruct (getField "comment" v) as [c|] eqn:Hget.
    + destruct (parse (ZArray LocalizedTextSchema) c) as [y|e] eqn:Hc.
      * destruct c as [| | | |items|]; try (cbn [parse] in Hc; discriminate).
        apply parse_holiday_inv in Hparse. subst w.
        exists items, (map localizedTextJson (map asLocalizedText items)).
        split; [reflexivity|]. split; [|rewrite !length_map; reflexivity].
        unfold HolidayData.holidayJson, HolidayData.asHoliday.
        cbn [HolidayData.comment]. rewrite Hget.
        cbn [getField app lookupField String.eqb Ascii.eqb Bool.eqb asItems].
        reflexivity.
      * destruct (Hbad c e eq_refl Hc) as [e' He']. congruence.
    + apply parse_holiday_inv in Hparse. subst w.
      unfold HolidayData.holidayJson, HolidayData.asHoliday.
      cbn [HolidayData.comment]. rewrite Hget. reflexivity.
  - intros Hnull. apply (Hbad JNull (invalidType "array") Hnull). reflexivity.
Qed.

Lemma holiday_comment_optional_witness :
  exists e,
    parse HolidaySchema
      (JObject [("id", JString "1"); ("comment", JNull)]%string) = Err e.
Proof.
  apply (proj2 (holiday_comment_optional
                  (JObject [("id", JString "1"); ("comment", JNull)]%string))).
  reflexivity.
Defined.

(** ** From the transport's answer to the retry decision *)

(** X23: what the hooks decide for each way a fetch can fail. A 2xx
    response whose body the schema rejects is never retried by either
    hook. A response outside 200-299 is retried by the countries hook
    while fewer than 3 failures have occurred, whatever its status (a 4xx
    status included); the holidays hook retries it while fewer than 2
    have occurred unless the status text contains 404: the status itself
    plays no part in either decision. *)
Theorem retry_decisions_end_to_end :
  forall (fetch : Transport) (url : string) (s : schema) (response : Response)
         (countryIsoCode : string) (year : option Z) (failureCount : nat)
         (failure : ApiFailure),
    fetch url = Fulfilled response ->
    fetchWithValidation fetch url s = inl failure ->
    (ok response = true ->
     (exists data, json response = Fulfilled data) ->
     retry useCountries failureCount (toError failure) = false /\
     retry (useHolidays countryIsoCode year) failureCount (toError failure)
     = false) /\
    (ok response = false ->
     retry useCountries failureCount (toError failure)
     = (failureCount <? 3)%nat /\
     retry (useHolidays countryIsoCode year) failureCount (toError failure)
     = negb (Js.includes "404"
               ("API request failed: " ++ statusText response)%string)
       && (failureCount <? 2)%nat).
Proof.
  intros fetch url s response iso year fc failure Hfetch Hfail.
  unfold fetchWithValidation, tryBlock in Hfail. rewrite Hfetch in Hfail.
  split.
  - intros Hok [data Hjson]. rewrite Hok, Hjson in Hfail. cbn [negb] in Hfail.
    destruct (parse s data) as [v|e]; [discriminate|].
    injection Hfail as <-. split; reflexivity.
  - intros Hok. rewrite Hok in Hfail. cbn [negb catchBlock] in Hfail.
    injection Hfail as <-. split; [reflexivity|].
    cbn [retry useHolidays toError errorName errorMessage].
    change (String.eqb "HolidaysApiError" "ValidationError") with false.
    cbv iota.
    destruct (Js.includes "404" _); reflexivity.
Qed.

Lemma retry_decisions_end_to_end_witness :
  retry useCountries 0
    (toError (HolidaysApiError "API request failed: Bad Request" (Some 400) None))
  = (0 <? 3)%nat.
Proof.
  apply (proj2 (retry_decisions_end_to_end
                  (fun _ => Fulfilled {| status := 400; statusText := "Bad Request";
                                         json := Fulfilled JNull |})
                  countriesUrl CountriesResponseSchema
                  {| status := 400; statusText := "Bad Request";
                     json := Fulfilled JNull |}
                  "US"%string None 0%nat
                  (HolidaysApiError "API request failed: Bad Request" (Some 400) None)
                  eq_refl eq_refl)).
  reflexivity.
Defined.
